(** * jsonhandler: signature validation and request dispatch

    A shallow embedding of the Go package [jsonhandler]
    (handler.go, errors.go, response.go).  The package turns a function
    [func(context.Context[, T]) (...)] into an [http.Handler]:
    [NewHandler] inspects the function's type through [reflect] and
    [ServeHTTP] decodes the body, calls the function and writes the
    result or the error as JSON.

    The collaborators the package calls are modelled by what the package
    observes of them:
    - [reflect.Type] by the answers of the methods the package calls
      ([Kind], [Elem], [NumIn], [In], [NumOut], [Out], [Implements] for
      the two interfaces asked about, [ConvertibleTo] for [ResponseFunc]);
    - [reflect.Value.Call] by the checks it makes before the function is
      entered (the number of arguments, their assignability);
    - [http.ResponseWriter] by a header map, the status line committed by
      the first [WriteHeader] (which panics on a code outside 100..999),
      the bytes written, and the log of calls;
    - [encoding/json] by section variables (the codec is not part of the
      package), given the indentation the package sets, except for the
      one struct the package itself encodes, [errResp]. *)

From Stdlib Require Import Ascii String.
From stdpp Require Import base numbers list strings pretty gmap.

Set Warnings "-register-all".

Open Scope Z_scope.

(** ** reflect.Kind and reflect.Type *)

(** Kinds whose types have no element type and are not functions. *)
Inductive BaseKind :=
  | Bool | Int | Int8 | Int16 | Int32 | Int64
  | Uint | Uint8 | Uint16 | Uint32 | Uint64 | Uintptr
  | Float32 | Float64 | Complex64 | Complex128
  | Interface | String_ | Struct | UnsafePointer.

(** Kinds whose types have an element type ([Elem] is defined). *)
Inductive ElemKind := Array | Chan | Map | Pointer | Slice.

Inductive Kind :=
  | Base (k : BaseKind)
  | Container (k : ElemKind)
  | Func.

#[global] Instance BaseKind_eq_dec : EqDecision BaseKind.
Proof. solve_decision. Defined.
#[global] Instance ElemKind_eq_dec : EqDecision ElemKind.
Proof. solve_decision. Defined.
#[global] Instance Kind_eq_dec : EqDecision Kind.
Proof. solve_decision. Defined.

(** The two interface questions the package asks of a type:
    [t.Implements(errorType)] and [t.Implements(contextType)]. *)
Record MethodSet := {
  implements_error : bool;
  implements_Context : bool;
}.

(** A [reflect.Type].  A function type also records the answer of
    [t.ConvertibleTo(optsType)], where [optsType] is [ResponseFunc]. *)
Inductive rtype :=
  | TBase (k : BaseKind) (ms : MethodSet)
  | TElem (k : ElemKind) (elem : rtype) (ms : MethodSet)
  | TFunc (ins outs : list rtype) (convertibleToOpts : bool) (ms : MethodSet).

Definition Kind_of (t : rtype) : Kind :=
  match t with
  | TBase k _ => Base k
  | TElem k _ _ => Container k
  | TFunc _ _ _ _ => Func
  end.

Definition methods (t : rtype) : MethodSet :=
  match t with
  | TBase _ ms | TElem _ _ ms | TFunc _ _ _ ms => ms
  end.

Definition Implements_error (t : rtype) : bool := implements_error (methods t).
Definition Implements_Context (t : rtype) : bool := implements_Context (methods t).

(** [t.Elem()]; reflect panics on a type without element type, the
    package only calls it behind a [Kind() == Slice] test. *)
Definition Elem (t : rtype) : option rtype :=
  match t with
  | TElem _ e _ => Some e
  | _ => None
  end.

Definition ConvertibleTo_opts (t : rtype) : bool :=
  match t with
  | TFunc _ _ c _ => c
  | _ => false
  end.

(** [t.NumIn()], [t.In(i)], [t.NumOut()], [t.Out(i)] of a function type. *)
Definition Ins (t : rtype) : list rtype :=
  match t with TFunc ins _ _ _ => ins | _ => [] end.
Definition Outs (t : rtype) : list rtype :=
  match t with TFunc _ outs _ _ => outs | _ => [] end.
Definition NumIn (t : rtype) : Z := Z.of_nat (length (Ins t)).
Definition NumOut (t : rtype) : Z := Z.of_nat (length (Outs t)).

(** Indexing with a Go [int]: out of range is a run-time panic, here [None]. *)
Definition index {A} (l : list A) (i : Z) : option A :=
  if decide (i < 0) then None else l !! Z.to_nat i.

Definition In_ (t : rtype) (i : Z) : option rtype := index (Ins t) i.
Definition Out (t : rtype) (i : Z) : option rtype := index (Outs t) i.

(** ** type returnType *)

Inductive returnType := returnInvalid | returnPayload | returnOpts | returnErr.

#[global] Instance returnType_eq_dec : EqDecision returnType.
Proof. solve_decision. Defined.

(** ** Errors: HandlerErr and every other error *)

(** An [error] value.  [HandlerErr code message err] is a value of the
    struct type [HandlerErr]; [errorString s cause] stands for an error of
    any other dynamic type, with the string its [Error()] returns and the
    error its [Unwrap()] returns (if it has one). *)
Inductive error :=
  | errorString (s : string) (cause : option error)
  | HandlerErr (code : Z) (message : string) (err : option error).

(** [func (h HandlerErr) Error() string]: [fmt.Sprintf("%d: %s", ...)]. *)
Definition err_Error (e : error) : string :=
  match e with
  | errorString s _ => s
  | HandlerErr code message _ => pretty code +:+ ": " +:+ message
  end.

(** [func (h HandlerErr) Unwrap() error], and [errors.Unwrap]. *)
Definition Unwrap (e : error) : option error :=
  match e with
  | errorString _ cause => cause
  | HandlerErr _ _ err => err
  end.

(** [errors.As(err, &jErr)] with [jErr] of type [HandlerErr]: the first
    error of the chain [err, Unwrap(err), ...] whose dynamic type is
    [HandlerErr], as (code, message).  Error types with an [As] method
    of their own, and errors that unwrap to several errors, are not
    modelled. *)
Fixpoint errors_As (e : error) : option (Z * string) :=
  match e with
  | HandlerErr code message _ => Some (code, message)
  | errorString _ (Some c) => errors_As c
  | errorString _ None => None
  end.

(** [func Error(code int, message string) HandlerErr]. *)
Definition Error (code : Z) (message : string) : error :=
  HandlerErr code message None.

(** [fmt.Errorf(format, a...)] for formats built from text and the verb
    [%w] on error operands: the display string, and the error the result
    unwraps to.  The result wraps an operand only when the format holds
    exactly one [%w]; with several of them [errors.Unwrap] of the result
    is nil. *)
Fixpoint Sprintf_w (format : string) (a : list error) : string :=
  match format with
  | EmptyString => EmptyString
  | String "%"%char (String "w"%char rest) =>
      match a with
      | e :: a' => err_Error e +:+ Sprintf_w rest a'
      | [] => "%!w(MISSING)" +:+ Sprintf_w rest []
      end
  | String c rest => String c (Sprintf_w rest a)
  end.

Fixpoint count_w (format : string) : nat :=
  match format with
  | EmptyString => 0
  | String "%"%char (String "w"%char rest) => S (count_w rest)
  | String _ rest => count_w rest
  end.

Definition wrapped_w (format : string) (a : list error) : option error :=
  if decide (count_w format = 1%nat) then head a else None.

Definition fmt_Errorf (format : string) (a : list error) : error :=
  errorString (Sprintf_w format a) (wrapped_w format a).

(** [func Errorf(code int, format string, a ...interface{}) HandlerErr]. *)
Definition Errorf (code : Z) (format : string) (a : list error) : error :=
  let err := fmt_Errorf format a in
  HandlerErr code (err_Error err) (Unwrap err).

(** ** net/http: headers, cookies and the response writer *)

Definition to_upper (c : ascii) : ascii :=
  let n := nat_of_ascii c in
  if decide (97 <= n <= 122)%nat then ascii_of_nat (n - 32) else c.
Definition to_lower (c : ascii) : ascii :=
  let n := nat_of_ascii c in
  if decide (65 <= n <= 90)%nat then ascii_of_nat (n + 32) else c.

(** [textproto.CanonicalMIMEHeaderKey] on keys made of token characters:
    the first letter and every letter after a hyphen in upper case, the
    others in lower case. *)
Fixpoint canonical (upper : bool) (s : string) : string :=
  match s with
  | EmptyString => EmptyString
  | String c rest =>
      String (if upper then to_upper c else to_lower c)
             (canonical (bool_decide (c = "-"%char)) rest)
  end.
Definition CanonicalMIMEHeaderKey (s : string) : string := canonical true s.

(** [http.Header]: a Go map from canonical keys to lists of values. *)
Abbreviation Header := (gmap string (list string)).

Definition Header_Set (key value : string) (h : Header) : Header :=
  <[CanonicalMIMEHeaderKey key := [value]]> h.
Definition Header_Add (key value : string) (h : Header) : Header :=
  <[CanonicalMIMEHeaderKey key := default [] (h !! CanonicalMIMEHeaderKey key) ++ [value]]> h.
Definition Header_Get (key : string) (h : Header) : string :=
  match h !! CanonicalMIMEHeaderKey key with
  | Some (v :: _) => v
  | _ => EmptyString
  end.

(** [*http.Cookie], by the header value [c.String()] serialises it to
    (empty for a cookie with an invalid name). *)
Record Cookie := { Cookie_String : string }.

(** [type Response struct { hd http.Header; StatusCode int; cookies []*http.Cookie }] *)
Record Response := {
  hd : Header;
  StatusCode : Z;
  cookies : list Cookie;
}.

(** [func (r *Response) Header() http.Header] *)
Definition Response_Header (r : Response) : Header := hd r.

(** [func (r *Response) SetCookie(cookie *http.Cookie)] *)
Definition Response_SetCookie (cookie : Cookie) (r : Response) : Response :=
  {| hd := hd r; StatusCode := StatusCode r; cookies := cookies r ++ [cookie] |}.

(** [type ResponseFunc func(r *Response)]: the carrier is passed by
    pointer, the function is its effect on the carrier.  [hd] is the
    writer's own map (Go maps are references), so what a callback does to
    [hd] is done to the writer's headers. *)
Definition ResponseFunc := Response -> Response.

(** The state of an [http.ResponseWriter], as [httptest.ResponseRecorder]
    keeps it: the live header map, and what the first [WriteHeader]
    committed (a later one is ignored, and so are later changes of the
    header map). *)
Record ResponseWriter := {
  handlerHeader : Header;
  wroteHeader : bool;
  status : Z;
  sentHeader : Header;
  written : string;
}.

Definition NewRecorder : ResponseWriter :=
  {| handlerHeader := ∅; wroteHeader := false; status := 200;
     sentHeader := ∅; written := EmptyString |}.

Definition StatusOK : Z := 200.
Definition StatusBadRequest : Z := 400.
Definition StatusInternalServerError : Z := 500.

(** [checkWriteHeaderCode]: the codes [WriteHeader] does not panic on. *)
Definition valid_code (code : Z) : Prop := 100 <= code <= 999.

#[global] Instance valid_code_dec code : Decision (valid_code code).
Proof. unfold valid_code. apply _. Defined.

(** ** *http.Request *)

Record Request := { Body : string }.

Definition nl : string := String (ascii_of_nat 10) EmptyString.
Definition dquote : string := String (ascii_of_nat 34) EmptyString.

(** The outcome of a Go call that may panic. *)
Inductive outcome (A : Type) :=
  | Returned (a : A)
  | Panicked (msg : string).
Arguments Returned {A} a.
Arguments Panicked {A} msg.

(** ** Go values and the JSON codec *)

(** The dynamic values the dispatcher passes to and receives from the
    wrapped function: the nil interface, the request context, a value of
    a user type [Data] (payloads and results), an error, a slice of
    [ResponseFunc]. *)
Inductive Value (Data : Type) :=
  | VNil
  | VCtx (r : Request)
  | VData (d : Data)
  | VError (e : error)
  | VOpts (fs : list ResponseFunc).
Arguments VNil {Data}.
Arguments VCtx {Data} r.
Arguments VData {Data} d.
Arguments VError {Data} e.
Arguments VOpts {Data} fs.

(** [encoding/json], as the package uses it. *)
Record Codec (Data : Type) := {
  (** [json.NewDecoder(body).Decode(pl)] into a new value of the given type *)
  json_Decode : rtype -> string -> Data + error;
  (** the document [enc.Encode(v)] writes when the encoder's indentation
      is [prefix] and [indent] (both empty: the compact form), newline
      included; [None] when [Encode] returns an error (nothing is
      written to the buffer then) *)
  json_Encode : string -> string -> Value Data -> option string;
  (** the JSON string literal of a Go string *)
  json_String : string -> string;
}.
Arguments json_Decode {Data} c t body.
Arguments json_Encode {Data} c prefix indent v.
Arguments json_String {Data} c s.

Section Handler.

Context {Data : Type} (codec : Codec Data).

#[local] Abbreviation Value := (Value Data).

(** [type errResp struct { Message string `json:"error"` }] *)
Record errResp := { Message : string }.

(** What [writeJSON] is given as [out interface{}]: a value that came
    from the wrapped function, or the package's own [errResp]. *)
Inductive output :=
  | OfValue (v : Value)
  | OfErrResp (e : errResp).

(** [*json.Encoder], by the indentation [SetIndent] has given it. *)
Record Encoder := {
  indentPrefix : string;
  indentValue : string;
}.

(** [json.NewEncoder(&buf)] and [enc.SetIndent(prefix, indent)] *)
Definition json_NewEncoder : Encoder :=
  {| indentPrefix := EmptyString; indentValue := EmptyString |}.
Definition SetIndent (prefix indent : string) (enc : Encoder) : Encoder :=
  {| indentPrefix := prefix; indentValue := indent |}.

(** The document of an [errResp], an object with the one member
    ["error"]: on one line when the encoder does not indent, else the
    member on a line of its own behind the prefix and one indent, and the
    closing brace behind the prefix. *)
Definition errResp_indented (prefix indent : string) (e : errResp) : string :=
  if decide (prefix = EmptyString ∧ indent = EmptyString) then
    "{" +:+ dquote +:+ "error" +:+ dquote +:+ ":"
        +:+ json_String codec (Message e) +:+ "}" +:+ nl
  else
    "{" +:+ nl +:+ prefix +:+ indent +:+ dquote +:+ "error" +:+ dquote +:+ ": "
        +:+ json_String codec (Message e) +:+ nl +:+ prefix +:+ "}" +:+ nl.

(** The document of an [errResp] with the indentation of [writeJSON]. *)
Definition errResp_document (e : errResp) : string :=
  "{" +:+ nl +:+ "  " +:+ dquote +:+ "error" +:+ dquote +:+ ": "
      +:+ json_String codec (Message e) +:+ nl +:+ "}" +:+ nl.

(** [enc.Encode(out)] *)
Definition Encode (enc : Encoder) (out : output) : option string :=
  match out with
  | OfValue v => json_Encode codec (indentPrefix enc) (indentValue enc) v
  | OfErrResp e => Some (errResp_indented (indentPrefix enc) (indentValue enc) e)
  end.

(** A Go value held in an [interface{}], as far as the package and
    [reflect] look at it: its [reflect.TypeOf]; whether that type is
    variadic; whether [reflect] finds the arguments of a call assignable
    to the parameters they are passed for (a context made by
    [context.WithValue] is not assignable to a parameter of a concrete
    type, even one that implements [context.Context]); and what calling
    it returns (functions that panic themselves are not modelled). *)
Record GoValue := {
  TypeOf : rtype;
  IsVariadic : bool;
  assignable : list Value -> bool;
  apply : list Value -> list Value;
}.

(** [v.Call(args)]: reflect panics when [v] is not a function, when the
    number of arguments is not the number of parameters (for a variadic
    function: when the arguments do not reach the parameter before the
    last), and when an argument is not assignable to its parameter.
    Only then is the function entered. *)
Definition Call (v : GoValue) (args : list Value) : outcome (list Value) :=
  if decide (Kind_of (TypeOf v) = Func) then
    let n := NumIn (TypeOf v) in
    let m := Z.of_nat (length args) in
    if (if IsVariadic v then bool_decide (n - 1 <= m) else bool_decide (m = n)) then
      if assignable v args then Returned (apply v args)
      else Panicked "reflect: Call using an argument of the wrong type"
    else Panicked "reflect: Call with wrong argument count"
  else Panicked "reflect: call of reflect.Value.Call on a value that is no function".

(** ** type handler *)

Record handler := {
  fn : option GoValue;
  hv : option GoValue;
  ht : option rtype;
  payloadType : option rtype;
  returnType_ : option rtype;
  takesPayload : bool;
  errN : Z;
  optsN : Z;
  outN : Z;
}.

Definition set_hv_ht (v : GoValue) (h : handler) : handler :=
  {| fn := fn h; hv := Some v; ht := Some (TypeOf v);
     payloadType := payloadType h; returnType_ := returnType_ h;
     takesPayload := takesPayload h;
     errN := errN h; optsN := optsN h; outN := outN h |}.
Definition set_payload (t : option rtype) (h : handler) : handler :=
  {| fn := fn h; hv := hv h; ht := ht h;
     payloadType := t; returnType_ := returnType_ h;
     takesPayload := true;
     errN := errN h; optsN := optsN h; outN := outN h |}.
Definition set_positions (e o p : Z) (h : handler) : handler :=
  {| fn := fn h; hv := hv h; ht := ht h;
     payloadType := payloadType h; returnType_ := returnType_ h;
     takesPayload := takesPayload h;
     errN := e; optsN := o; outN := p |}.
Definition set_errN (i : Z) (h : handler) := set_positions i (optsN h) (outN h) h.
Definition set_optsN (i : Z) (h : handler) := set_positions (errN h) i (outN h) h.
Definition set_outN (i : Z) (h : handler) := set_positions (errN h) (optsN h) i h.

(** ** The signature validator *)

(** [func getReturnType(ret reflect.Type) returnType]; the pattern
    [TElem Slice e _] is [ret.Kind() == reflect.Slice] with [e] for
    [ret.Elem()]. *)
Definition getReturnType (ret : rtype) : returnType :=
  if Implements_error ret then returnErr
  else
    match ret with
    | TElem Slice e _ =>
        if decide (Kind_of e = Func) then
          if ConvertibleTo_opts e then returnOpts else returnPayload
        else returnPayload
    | _ => returnPayload
    end.

(** [func validateContext(arg reflect.Type) error] *)
Definition validateContext (arg : rtype) : option string :=
  if negb (Implements_Context arg)
  then Some "first argument of handler does not implement context.Context"
  else None.

(** [func parsePayload(h *handler, ht reflect.Type) error] *)
Definition parsePayload (h : handler) (ht : rtype) : handler * option string :=
  if decide (NumIn ht ≠ 2) then (h, None)
  else (set_payload (In_ ht 1) h, None).

(** [func parseArgs(h *handler, ht reflect.Type) error]; [ht.In(0)] is
    the head of the inputs, which exists when [ht.NumIn()] is not 0. *)
Definition parseArgs (h : handler) (ht : rtype) : handler * option string :=
  match Ins ht with
  | [] =>
      (h, Some "handler function must take a context.Context as its first argument")
  | arg0 :: _ =>
      match validateContext arg0 with
      | Some err => (h, Some err)
      | None =>
          match parsePayload h ht with
          | (h', Some err) => (h', Some err)
          | (h', None) => (h', None)
          end
      end
  end.

(** The loop of [parseReturns]: [for i := 0; i < n; i++] over [ht.Out(i)]. *)
Fixpoint parseReturns_loop (h : handler) (outs : list rtype) (i : Z)
  : handler * option string :=
  match outs with
  | [] => (h, None)
  | t :: rest =>
      match getReturnType t with
      | returnErr => parseReturns_loop (set_errN i h) rest (i + 1)
      | returnPayload => parseReturns_loop (set_outN i h) rest (i + 1)
      | returnOpts => parseReturns_loop (set_optsN i h) rest (i + 1)
      | returnInvalid =>
          (h, Some ("invalid return type in position " +:+ pretty i))
      end
  end.

(** [func parseReturns(h *handler, ht reflect.Type) error] *)
Definition parseReturns (h : handler) (ht : rtype) : handler * option string :=
  let h := set_positions (-1) (-1) (-1) h in
  let n := NumOut ht in
  if decide (n = 0) then (h, None)
  else if decide (n > 3) then (h, Some "too many return values")
  else
    match parseReturns_loop h (Outs ht) 0 with
    | (h, Some err) => (h, Some err)
    | (h, None) =>
        if decide (n > 1 ∧ errN h >= 0 ∧ errN h < n - 1) then
          (h, Some "error must be the last return value")
        else if decide (n > 0 ∧ outN h >= 0 ∧ outN h ≠ 0) then
          (h, Some "the payload must be the first return value")
        else (h, None)
    end.

(** [func parseHandler(h *handler) interface{}] *)
Definition parseHandler (h : handler) : handler * option string :=
  match fn h with
  | None => (h, Some "nil handlers are invalid")
  | Some f =>
      let handlerType := TypeOf f in
      let h := set_hv_ht f h in
      if decide (Kind_of handlerType ≠ Func) then
        (h, Some "handler must be a function")
      else
        match parseArgs h handlerType with
        | (h, Some err) => (h, Some err)
        | (h, None) =>
            match parseReturns h handlerType with
            | (h, Some err) => (h, Some err)
            | (h, None) => (h, None)
            end
        end
  end.

(** [func NewHandler(fn interface{}) http.Handler] *)
Definition NewHandler (f : option GoValue) : outcome handler :=
  let h := {| fn := f; hv := None; ht := None; payloadType := None;
              returnType_ := None; takesPayload := false;
              errN := 0; optsN := 0; outN := 0 |} in
  match parseHandler h with
  | (_, Some err) => Panicked err
  | (h, None) => Returned h
  end.

(** ** The dispatcher *)

(** What the handler does to its collaborators, in order; [EvCall] is
    the wrapped function being entered. *)
Inductive Event :=
  | EvHeaderSet (key value : string)
  | EvHeaderAdd (key value : string)
  | EvCallback (i : nat)
  | EvWriteHeader (code : Z)
  | EvWrite (p : string)
  | EvBodyClose
  | EvCall (args : list Value).

(** The world a request is served in: the response writer and the log
    of calls made so far (oldest first). *)
Record World := {
  rw : ResponseWriter;
  log : list Event;
}.

Definition M (A : Type) : Type := World -> outcome A * World.

Definition ret {A} (a : A) : M A := fun s => (Returned a, s).
Definition bind {A B} (m : M A) (k : A -> M B) : M B :=
  fun s =>
    match m s with
    | (Returned a, s') => k a s'
    | (Panicked msg, s') => (Panicked msg, s')
    end.
Definition panic {A} (msg : string) : M A := fun s => (Panicked msg, s).

#[global] Instance M_ret : MRet M := @ret.
#[global] Instance M_bind : MBind M := fun A B k m => bind m k.

Definition emit (e : Event) : M unit :=
  fun s => (Returned tt, {| rw := rw s; log := (log s ++ [e])%list |}).
Definition get_rw : M ResponseWriter := fun s => (Returned (rw s), s).
Definition put_rw (w : ResponseWriter) : M unit :=
  fun s => (Returned tt, {| rw := w; log := log s |}).

Definition with_header (hdr : Header) (w : ResponseWriter) : ResponseWriter :=
  {| handlerHeader := hdr; wroteHeader := wroteHeader w; status := status w;
     sentHeader := sentHeader w; written := written w |}.

(** [w.Header().Set(key, value)] *)
Definition w_Header_Set (key value : string) : M unit :=
  emit (EvHeaderSet key value);;
  w ← get_rw;
  put_rw (with_header (Header_Set key value (handlerHeader w)) w).

(** [w.Header().Add(key, value)] *)
Definition w_Header_Add (key value : string) : M unit :=
  emit (EvHeaderAdd key value);;
  w ← get_rw;
  put_rw (with_header (Header_Add key value (handlerHeader w)) w).

(** What a [WriteHeader] with a code that has passed the check does to
    the writer: the first one commits the status and the headers as they
    are, later ones change nothing. *)
Definition commit (code : Z) (w : ResponseWriter) : ResponseWriter :=
  if wroteHeader w then w
  else {| handlerHeader := handlerHeader w; wroteHeader := true; status := code;
          sentHeader := handlerHeader w; written := written w |}.

(** [w.WriteHeader(code)]: a call after the first returns at once;
    the first one panics on a code outside 100..999, and commits
    otherwise. *)
Definition w_WriteHeader (code : Z) : M unit :=
  emit (EvWriteHeader code);;
  w ← get_rw;
  if wroteHeader w then ret tt
  else if decide (valid_code code) then put_rw (commit code w)
  else panic "invalid WriteHeader code".

(** [w.Write(p)]: a write before any [WriteHeader] commits status 200. *)
Definition w_Write (p : string) : M unit :=
  emit (EvWrite p);;
  w ← get_rw;
  let w := commit StatusOK w in
  put_rw {| handlerHeader := handlerHeader w; wroteHeader := wroteHeader w;
            status := status w; sentHeader := sentHeader w;
            written := written w +:+ p |}.

(** [http.Error(w, error, code)] *)
Definition http_Error (msg : string) (code : Z) : M unit :=
  w_Header_Set "Content-Type" "text/plain; charset=utf-8";;
  w_Header_Set "X-Content-Type-Options" "nosniff";;
  w_WriteHeader code;;
  w_Write (msg +:+ nl).

(** [http.SetCookie(w, cookie)] *)
Definition http_SetCookie (cookie : Cookie) : M unit :=
  let v := Cookie_String cookie in
  if decide (v ≠ EmptyString) then w_Header_Add "Set-Cookie" v else ret tt.

(** [io.Copy(w, &buf)]: [bytes.Buffer.WriteTo] writes the buffer in one
    [Write], and does not call [Write] for an empty buffer. *)
Definition io_Copy (buf : string) : M unit :=
  if decide (buf = EmptyString) then ret tt else w_Write buf.

(** [o(&res)]: the carrier's [hd] is the writer's header map itself, so
    the callback sees the map as it is now and leaves its changes in it. *)
Definition call_opt (i : nat) (o : ResponseFunc) (res : Response) : M Response :=
  emit (EvCallback i);;
  w ← get_rw;
  let res' := o {| hd := handlerHeader w; StatusCode := StatusCode res;
                   cookies := cookies res |} in
  put_rw (with_header (hd res') w);;
  ret res'.

(** [for _, o := range opts { o(&res) }] *)
Fixpoint range_opts (i : nat) (opts : list ResponseFunc) (res : Response) : M Response :=
  match opts with
  | [] => ret res
  | o :: rest => res' ← call_opt i o res; range_opts (S i) rest res'
  end.

(** [for _, c := range res.cookies { http.SetCookie(w, c) }] *)
Fixpoint range_cookies (cs : list Cookie) : M unit :=
  match cs with
  | [] => ret tt
  | c :: rest => http_SetCookie c;; range_cookies rest
  end.

(** [func (h handler) writeJSON(w http.ResponseWriter, code int, out interface{}, opts []ResponseFunc)] *)
Definition writeJSON (h : handler) (code : Z) (out : output)
    (opts : list ResponseFunc) : M unit :=
  w ← get_rw;
  let res := {| hd := handlerHeader w; StatusCode := code; cookies := [] |} in
  let enc := json_NewEncoder in
  let enc := SetIndent EmptyString "  " enc in
  buf ← match Encode enc out with
         | Some doc => ret doc
         | None =>
             http_Error "Internal error: Encoding response failed"
                        StatusInternalServerError;;
             ret EmptyString
         end;
  res ← range_opts 0 opts res;
  w_Header_Set "content-type" "application/json; charset=utf-8";;
  range_cookies (cookies res);;
  w_WriteHeader (StatusCode res);;
  io_Copy buf.

(** [func (h handler) handleError(w http.ResponseWriter, err error)] *)
Definition handleError (h : handler) (err : error) : M unit :=
  let '(msg, code) :=
    match errors_As err with
    | Some (jcode, jmessage) => (jmessage, jcode)
    | None => (err_Error err, StatusInternalServerError)
    end in
  writeJSON h code (OfErrResp {| Message := msg |}) [].

(** [h.hv.Call(args)] *)
Definition hv_Call (h : handler) (args : list Value) : M (list Value) :=
  match hv h with
  | None => panic "reflect: call of reflect.Value.Call on zero Value"
  | Some v =>
      match Call v args with
      | Returned responses => emit (EvCall args);; ret responses
      | Panicked msg => panic msg
      end
  end.

(** The three [if]s of [ServeHTTP] that read [out], [err] and [opts]
    from [responses]; [None] is a run-time panic (index out of range, or
    the failed type assertion [.([]ResponseFunc)]).  A nil error, or a
    value that is no error, leaves [err] nil. *)
Definition collect (h : handler) (responses : list Value)
  : option (Value * option error * list ResponseFunc) :=
  out ← (if decide (outN h >= 0) then index responses (outN h) else Some VNil);
  err ← (if decide (errN h >= 0) then
            v ← index responses (errN h);
            Some (match v with VError e => Some e | _ => None end)
          else Some None);
  opts ← (if decide (optsN h >= 0) then
             v ← index responses (optsN h);
             match v with VOpts fs => Some fs | _ => None end
           else Some []);
  Some (out, err, opts).

(** [ServeHTTP] from "collect responses" on. *)
Definition ServeHTTP_respond (h : handler) (responses : list Value) : M unit :=
  if decide (outN h < 0 ∧ errN h < 0) then w_WriteHeader StatusOK
  else
    match collect h responses with
    | None => panic "runtime error while collecting the responses"
    | Some (out, Some err, opts) => handleError h err
    | Some (out, None, opts) => writeJSON h StatusOK (OfValue out) opts
    end.

(** [ServeHTTP] from "call the actual handler!" on. *)
Definition ServeHTTP_call (h : handler) (args : list Value) : M unit :=
  responses ← hv_Call h args;
  ServeHTTP_respond h responses.

(** [func (h handler) ServeHTTP(w http.ResponseWriter, r *http.Request)] *)
Definition ServeHTTP (h : handler) (r : Request) : M unit :=
  let ctx := VCtx r in
  let args := [ctx] in
  if takesPayload h then
    match payloadType h with
    | None => panic "reflect: New(nil)"
    | Some t =>
        match json_Decode codec t (Body r) with
        | inr err =>
            handleError h (Errorf StatusBadRequest "Bad request: %w" [err]);;
            emit EvBodyClose
        | inl pl =>
            emit EvBodyClose;;
            ServeHTTP_call h (args ++ [VData pl])
        end
    end
  else ServeHTTP_call h args.

(** Serving one request with a fresh recorder. *)
Definition fresh : World := {| rw := NewRecorder; log := [] |}.
Definition serve (h : handler) (r : Request) : outcome unit * World :=
  ServeHTTP h r fresh.

(** ** Vocabulary of the statements *)

(** The arguments [ServeHTTP] calls the wrapped function with; [None]
    when it does not get to the call (the body does not decode). *)
Definition call_args (h : handler) (r : Request) : option (list Value) :=
  if takesPayload h then
    t ← payloadType h;
    match json_Decode codec t (Body r) with
    | inl pl => Some [VCtx r; VData pl]
    | inr _ => None
    end
  else Some [VCtx r].

(** The document [writeJSON] encodes a value of the wrapped function
    to: the encoder's, with no prefix and an indentation of two spaces. *)
Definition json_Marshal (v : Value) : option string :=
  json_Encode codec EmptyString "  " v.

(** The values the wrapped function returns for a request, when it is
    called and the call does not panic. *)
Definition invocation (h : handler) (r : Request) : option (list Value) :=
  args ← call_args h r;
  f ← hv h;
  match Call f args with
  | Returned responses => Some responses
  | Panicked _ => None
  end.

(** What the handler logs up to the entry of the function, when the
    arguments can be built. *)
Definition prologue (h : handler) (r : Request) : list Event :=
  match call_args h r with
  | Some args => (if takesPayload h then [EvBodyClose] else []) ++ [EvCall args]
  | None => []
  end.

(** The carrier after the callbacks, applied in order. *)
Definition apply_opts (opts : list ResponseFunc) (res : Response) : Response :=
  foldl (fun r o => o r) res opts.

(** The [Set-Cookie] additions of [for _, c := range res.cookies]. *)
Definition cookie_events (cs : list Cookie) : list Event :=
  omap (fun c => if decide (Cookie_String c ≠ EmptyString)
                 then Some (EvHeaderAdd "Set-Cookie" (Cookie_String c))
                 else None) cs.

(** The header map after those additions. *)
Definition add_cookies (cs : list Cookie) (hdr : Header) : Header :=
  foldl (fun hdr c => if decide (Cookie_String c ≠ EmptyString)
                      then Header_Add "Set-Cookie" (Cookie_String c) hdr
                      else hdr) hdr cs.

(** The cause chain of an error: the error, what it unwraps to, and so on. *)
Fixpoint cause_chain (e : error) : list error :=
  e :: match e with
       | errorString _ (Some c) | HandlerErr _ _ (Some c) => cause_chain c
       | _ => []
       end.

Definition is_HandlerErr (e : error) : bool :=
  match e with HandlerErr _ _ _ => true | errorString _ _ => false end.

(** Counting the calls of the response sink in a log. *)
Definition is_WriteHeader (e : Event) : bool :=
  match e with EvWriteHeader _ => true | _ => false end.
Definition is_Write (e : Event) : bool :=
  match e with EvWrite _ => true | _ => false end.
(** Events through which the header map is (or may be) changed: a
    [Set], an [Add], a callback holding the carrier. *)
Definition touches_header (e : Event) : bool :=
  match e with
  | EvHeaderSet _ _ | EvHeaderAdd _ _ | EvCallback _ => true
  | _ => false
  end.
Definition count (p : Event -> bool) (l : list Event) : nat :=
  length (filter (fun e => p e = true) l).

(** The part of a log after the first [WriteHeader]. *)
Fixpoint after_WriteHeader (l : list Event) : list Event :=
  match l with
  | [] => []
  | e :: rest => if is_WriteHeader e then rest else after_WriteHeader rest
  end.
(** The part of a log before the first [WriteHeader]. *)
Fixpoint before_WriteHeader (l : list Event) : list Event :=
  match l with
  | [] => []
  | e :: rest => if is_WriteHeader e then [] else e :: before_WriteHeader rest
  end.

(** The sink protocol with [writes] calls of [Write]: [WriteHeader]
    called exactly once, [Write] called [writes] times and not before
    [WriteHeader], and the headers left alone after [WriteHeader]. *)
Definition sink_calls (writes : nat) (l : list Event) : bool :=
  bool_decide (count is_WriteHeader l = 1%nat)
  && bool_decide (count is_Write l = writes)
  && bool_decide (count is_Write (before_WriteHeader l) = 0%nat)
  && bool_decide (count touches_header (after_WriteHeader l) = 0%nat).

(** The sink protocol of the specification: [WriteHeader] and [Write]
    each called exactly once, in that order, no header changed after
    [WriteHeader]. *)
Definition sink_protocol (l : list Event) : bool := sink_calls 1 l.

(** A stretch of log without calls of [WriteHeader] and [Write], and
    one without [WriteHeader] and without changes of the headers. *)
Definition quiet (l : list Event) : Prop :=
  Forall (λ e, is_WriteHeader e = false ∧ is_Write e = false) l.
Definition calm (l : list Event) : Prop :=
  Forall (λ e, is_WriteHeader e = false ∧ touches_header e = false) l.

(** Shapes of the returns of a candidate: an error-role return exists
    and the last return is not one; a payload-role return stands at a
    position other than the first. *)
Definition error_not_last (outs : list rtype) : Prop :=
  (∃ t, t ∈ outs ∧ getReturnType t = returnErr) ∧
  (∃ t, last outs = Some t ∧ getReturnType t ≠ returnErr).
Definition payload_not_first (outs : list rtype) : Prop :=
  ∃ (i : nat) t, outs !! i = Some t ∧ i ≠ 0%nat ∧ getReturnType t = returnPayload.

(** A slice of functions convertible to [ResponseFunc]. *)
Definition is_opts_slice (t : rtype) : Prop :=
  ∃ e ms, t = TElem Slice e ms ∧ Kind_of e = Func ∧ ConvertibleTo_opts e = true.

(** ** Vocabulary of the further properties *)

(** [func Request(ctx context.Context) *http.Request]: the value the
    context holds under [ctxKeyRequest], asserted to be a request.  The
    contexts of the model are those [ServeHTTP] derives with
    [context.WithValue(ctx, ctxKeyRequest, r)]; on any other value the
    assertion panics. *)
Definition Request_ (ctx : Value) : outcome Request :=
  match ctx with
  | VCtx r => Returned r
  | _ => Panicked "interface conversion: interface {} is not *http.Request"
  end.

(** [r.Header().Set(key, value)] and [r.SetCookie(cookie)] as callbacks. *)
Definition Response_Header_Set (key value : string) : ResponseFunc :=
  fun r => {| hd := Header_Set key value (Response_Header r);
              StatusCode := StatusCode r; cookies := cookies r |}.

(** The position a scan of the returns from position [i] on leaves for
    a role: that of the last return of the role, [d] when there is none. *)
Fixpoint last_role (role : returnType) (outs : list rtype) (i d : Z) : Z :=
  match outs with
  | [] => d
  | t :: rest =>
      last_role role rest (i + 1) (if decide (getReturnType t = role) then i else d)
  end.

(** [pos] is the position of the last return of the role, or -1 when no
    return has the role. *)
Definition position_of (role : returnType) (pos : Z) (outs : list rtype) : Prop :=
  (pos = -1 ∧ Forall (λ t, getReturnType t ≠ role) outs) ∨
  (∃ (k : nat) t, pos = Z.of_nat k ∧ outs !! k = Some t ∧ getReturnType t = role ∧
     ∀ (j : nat) t', (k < j)%nat → outs !! j = Some t' → getReturnType t' ≠ role).

(** The argument lists the wrapped function is entered with in a log. *)
Definition calls (l : list Event) : list (list Value) :=
  omap (λ e, match e with EvCall args => Some args | _ => None end) l.

Definition is_BodyClose (e : Event) : bool :=
  match e with EvBodyClose => true | _ => false end.

(** Calls of the response sink, as opposed to the close of the body and
    the entry of the function. *)
Definition is_sink (e : Event) : bool :=
  match e with EvBodyClose | EvCall _ => false | _ => true end.

(** A format without any verb. *)
Fixpoint no_verb (format : string) : bool :=
  match format with
  | EmptyString => true
  | String c rest => negb (bool_decide (c = "%"%char)) && no_verb rest
  end.

(** The values of the cookies that serialise to a non-empty string. *)
Definition cookie_values (cs : list Cookie) : list string :=
  filter (λ v, v ≠ EmptyString) (Cookie_String <$> cs).

End Handler.

Arguments GoValue Data : clear implicits.
Arguments handler Data : clear implicits.
Arguments output Data : clear implicits.
Arguments Event Data : clear implicits.
Arguments World Data : clear implicits.
Arguments M Data A : clear implicits.

(** ** The types and handlers of the package's tests *)

Definition noMethods : MethodSet :=
  {| implements_error := false; implements_Context := false |}.

(** [context.Context], [error], [string], [chan int] *)
Definition contextType : rtype :=
  TBase Interface {| implements_error := false; implements_Context := true |}.
Definition errorType : rtype :=
  TBase Interface {| implements_error := true; implements_Context := false |}.
Definition stringType : rtype := TBase String_ noMethods.
Definition chanIntType : rtype := TElem Chan (TBase Int noMethods) noMethods.

(** [ResponseFunc], that is [func(r *Response)], and [[]ResponseFunc] *)
Definition ResponseFuncType : rtype :=
  TFunc [TElem Pointer (TBase Struct noMethods) noMethods] [] true noMethods.
Definition optsType : rtype := TElem Slice ResponseFuncType noMethods.

(** [func(ins...) (outs...)], a function type without methods *)
Definition funcType (ins outs : list rtype) : rtype := TFunc ins outs false noMethods.

(** A codec for string payloads; a channel stands for the values
    [encoding/json] refuses to encode.  The documents of strings and of
    [null] are the same with every indentation. *)
Module Toy.

Inductive data :=
  | Str (s : string)
  | ChanInt.

Definition is_dquote (c : ascii) : bool := bool_decide (c = ascii_of_nat 34).

Fixpoint strip_closing_quote (s : string) : option string :=
  match s with
  | EmptyString => None
  | String c EmptyString => if is_dquote c then Some EmptyString else None
  | String c rest => String c <$> strip_closing_quote rest
  end.

Definition unquote (s : string) : option string :=
  match s with
  | String c rest => if is_dquote c then strip_closing_quote rest else None
  | EmptyString => None
  end.

Definition decode (t : rtype) (body : string) : data + error :=
  if decide (Kind_of t = Base String_) then
    match unquote body with
    | Some s => inl (Str s)
    | None => inr (errorString "json: cannot unmarshal into Go value of type string" None)
    end
  else inr (errorString "json: unsupported type" None).

Definition quote (s : string) : string := dquote +:+ s +:+ dquote.

Definition marshal (v : Value data) : option string :=
  match v with
  | VNil => Some ("null" +:+ nl)
  | VData (Str s) => Some (quote s +:+ nl)
  | VError _ => Some ("{}" +:+ nl)
  | VData ChanInt | VCtx _ | VOpts _ => None
  end.

Definition codec : Codec data :=
  {| json_Decode := decode; json_Encode := fun _ _ => marshal; json_String := quote |}.

(** [func(_ context.Context, s string) string { return fmt.Sprintf("hello %s", s) }] *)
Definition hello : GoValue data :=
  {| TypeOf := funcType [contextType; stringType] [stringType];
     IsVariadic := false; assignable := fun _ => true;
     apply := fun args =>
       match args with
       | [_; VData (Str s)] => [VData (Str ("hello " +:+ s))]
       | _ => [VNil]
       end |}.

Definition created : ResponseFunc :=
  fun r => {| hd := hd r; StatusCode := 201; cookies := cookies r |}.

(** [func(_ context.Context) (string, []ResponseFunc)], "Status code updater" *)
Definition statusUpdater : GoValue data :=
  {| TypeOf := funcType [contextType] [stringType; optsType];
     IsVariadic := false; assignable := fun _ => true;
     apply := fun _ => [VData (Str "ok"); VOpts [created]] |}.

(** [func(_ context.Context) error { return Errorf(http.StatusBadGateway, "Bad gateway") }] *)
Definition customError : GoValue data :=
  {| TypeOf := funcType [contextType] [errorType];
     IsVariadic := false; assignable := fun _ => true;
     apply := fun _ => [VError (Errorf 502 "Bad gateway" [])] |}.

(** [func(_ context.Context, s string) {}], "Bad request" *)
Definition takesString : GoValue data :=
  {| TypeOf := funcType [contextType; stringType] [];
     IsVariadic := false; assignable := fun _ => true;
     apply := fun _ => [] |}.

(** [func(_ context.Context) {}] *)
Definition noReturns : GoValue data :=
  {| TypeOf := funcType [contextType] [];
     IsVariadic := false; assignable := fun _ => true;
     apply := fun _ => [] |}.

(** [func(_ context.Context) []ResponseFunc], "Only writes 201" *)
Definition onlyOpts : GoValue data :=
  {| TypeOf := funcType [contextType] [optsType];
     IsVariadic := false; assignable := fun _ => true;
     apply := fun _ => [VOpts [created]] |}.

(** [func(ctx context.Context, a, b string) {}] *)
Definition threeInputs : GoValue data :=
  {| TypeOf := funcType [contextType; stringType; stringType] [];
     IsVariadic := false; assignable := fun _ => true;
     apply := fun _ => [] |}.

(** [func(ctx context.Context) (error, error) { return errors.New("boom"), nil }] *)
Definition twoErrors : GoValue data :=
  {| TypeOf := funcType [contextType] [errorType; errorType];
     IsVariadic := false; assignable := fun _ => true;
     apply := fun _ => [VError (errorString "boom" None); VNil] |}.

(** [func(ctx context.Context) (error, string)] *)
Definition errorFirst : GoValue data :=
  {| TypeOf := funcType [contextType] [errorType; stringType];
     IsVariadic := false; assignable := fun _ => true;
     apply := fun _ => [VNil; VData (Str "late")] |}.

(** [func(ctx context.Context) chan int { return make(chan int) }] *)
Definition returnsChan : GoValue data :=
  {| TypeOf := funcType [contextType] [chanIntType];
     IsVariadic := false; assignable := fun _ => true;
     apply := fun _ => [VData ChanInt] |}.

(** The handler [NewHandler] returns, or the zero handler after a panic. *)
Definition must (o : outcome (handler data)) : handler data :=
  match o with
  | Returned h => h
  | Panicked _ =>
      {| fn := None; hv := None; ht := None; payloadType := None;
         returnType_ := None; takesPayload := false;
         errN := 0; optsN := 0; outN := 0 |}
  end.

Definition request (body : string) : Request := {| Body := body |}.

(** [func(ctx context.Context) (string, []func(r *Response))]: the
    second return is a slice of functions convertible to [ResponseFunc],
    its value is no [[]ResponseFunc]. *)
Definition plainFuncs : GoValue data :=
  {| TypeOf := funcType [contextType]
                 [stringType;
                  TElem Slice
                    (TFunc [TElem Pointer (TBase Struct noMethods) noMethods] []
                       true noMethods) noMethods];
     IsVariadic := false; assignable := fun _ => true;
     apply := fun _ => [VData (Str "ok"); VData (Str "[]func(*Response)")] |}.

(** [func(s string) {}] and a function with four returns *)
Definition noContext : GoValue data :=
  {| TypeOf := funcType [stringType] [];
     IsVariadic := false; assignable := fun _ => true;
     apply := fun _ => [] |}.
Definition fourReturns : GoValue data :=
  {| TypeOf := funcType [contextType] [stringType; optsType; errorType; errorType];
     IsVariadic := false; assignable := fun _ => true;
     apply := fun _ => [VNil; VOpts []; VNil; VNil] |}.

(** [func(ctx context.Context, s string) (string, []ResponseFunc, error)] *)
Definition fullSignature : GoValue data :=
  {| TypeOf := funcType [contextType; stringType] [stringType; optsType; errorType];
     IsVariadic := false; assignable := fun _ => true;
     apply := fun args =>
       match args with
       | [_; VData (Str s)] =>
           [VData (Str s);
            VOpts [Response_SetCookie {| Cookie_String := "a=1" |};
                   Response_Header_Set "x-trace" "7";
                   Response_SetCookie {| Cookie_String := "b=2" |}];
            VNil]
       | _ => [VNil; VOpts []; VError (Error 500 "no payload")]
       end |}.

(** [func(ctx context.Context) (string, []ResponseFunc, error)],
    failing with a result and a callback at hand *)
Definition failing : GoValue data :=
  {| TypeOf := funcType [contextType] [stringType; optsType; errorType];
     IsVariadic := false; assignable := fun _ => true;
     apply := fun _ => [VData (Str "partial"); VOpts [created];
                        VError (Error 409 "conflict")] |}.

(** [func(ctx context.Context) error { return nil }] *)
Definition noError : GoValue data :=
  {| TypeOf := funcType [contextType] [errorType];
     IsVariadic := false; assignable := fun _ => true;
     apply := fun _ => [VNil] |}.

(** [func(ctx context.Context) (string, error, error) { return "ok", errors.New("boom"), nil }] *)
Definition errorBeforeError : GoValue data :=
  {| TypeOf := funcType [contextType] [stringType; errorType; errorType];
     IsVariadic := false; assignable := fun _ => true;
     apply := fun _ => [VData (Str "ok"); VError (errorString "boom" None); VNil] |}.

(** [func(ctx context.Context) error { return Error(0, "zero") }] *)
Definition zeroCode : GoValue data :=
  {| TypeOf := funcType [contextType] [errorType];
     IsVariadic := false; assignable := fun _ => true;
     apply := fun _ => [VError (Error 0 "zero")] |}.

(** [func(r *Response) { r.StatusCode = 0 }] *)
Definition noStatus : ResponseFunc :=
  fun r => {| hd := hd r; StatusCode := 0; cookies := cookies r |}.

(** [func(_ context.Context) (string, []ResponseFunc)], with a callback
    that sets the status code to 0 *)
Definition statusZero : GoValue data :=
  {| TypeOf := funcType [contextType] [stringType; optsType];
     IsVariadic := false; assignable := fun _ => true;
     apply := fun _ => [VData (Str "ok"); VOpts [noStatus]] |}.

(** [func(ctx context.Context) (string, []func(r *Response), error)],
    returning an error next to a value that is no [[]ResponseFunc] *)
Definition plainFuncsError : GoValue data :=
  {| TypeOf := funcType [contextType]
                 [stringType;
                  TElem Slice
                    (TFunc [TElem Pointer (TBase Struct noMethods) noMethods] []
                       true noMethods) noMethods;
                  errorType];
     IsVariadic := false; assignable := fun _ => true;
     apply := fun _ => [VData (Str "ok"); VData (Str "[]func(*Response)");
                        VError (Error 409 "conflict")] |}.

(** [func(ctx myContext) {}], where [myContext] is a struct type that
    implements [context.Context]: the context [ServeHTTP] makes is not
    assignable to the parameter *)
Definition concreteContext : GoValue data :=
  {| TypeOf := funcType
                 [TBase Struct {| implements_error := false;
                                  implements_Context := true |}] [];
     IsVariadic := false; assignable := fun _ => false;
     apply := fun _ => [] |}.

End Toy.

(** * Properties *)

(** ** The signature validator *)

Section Validator.

Context {Data : Type}.
Implicit Types (h : handler Data) (g : GoValue Data) (t : rtype).

Lemma getReturnType_not_invalid t : getReturnType t ≠ returnInvalid.
Proof.
  unfold getReturnType.
  destruct (Implements_error t); [done|].
  destruct t as [|[] e ?|]; try done.
  destruct (decide (Kind_of e = Func)); [|done].
  by destruct (ConvertibleTo_opts e).
Qed.

Lemma getReturnType_payload t :
  Implements_error t = false → ¬ is_opts_slice t → getReturnType t = returnPayload.
Proof.
  intros He Hno. unfold getReturnType. rewrite He.
  destruct t as [|[] e ms|]; try done.
  destruct (decide (Kind_of e = Func)) as [Hk|]; [|done].
  destruct (ConvertibleTo_opts e) eqn:Hc; [|done].
  destruct Hno. by exists e, ms.
Qed.

Lemma getReturnType_err t :
  getReturnType t = returnErr ↔ Implements_error t = true.
Proof.
  unfold getReturnType. destruct (Implements_error t); [done|].
  split; [|done].
  destruct t as [|[] e ?|]; try done.
  destruct (decide (Kind_of e = Func)); [|done].
  by destruct (ConvertibleTo_opts e).
Qed.

(** The loop of [parseReturns] never takes its error branch. *)
Lemma parseReturns_loop_ok h outs i : (parseReturns_loop h outs i).2 = None.
Proof.
  revert h i. induction outs as [|t outs IH]; intros h i; simpl; [done|].
  pose proof (getReturnType_not_invalid t).
  destruct (getReturnType t); try done; apply IH.
Qed.

(** The loop only writes the three positions. *)
Lemma parseReturns_loop_frame h outs i :
  let h' := (parseReturns_loop h outs i).1 in
  fn h' = fn h ∧ hv h' = hv h ∧ ht h' = ht h ∧
  payloadType h' = payloadType h ∧ takesPayload h' = takesPayload h.
Proof.
  revert h i. induction outs as [|t outs IH]; intros h i; simpl; [done|].
  destruct (getReturnType t); simpl; try done;
    match goal with |- context [parseReturns_loop ?h1 _ ?j] =>
      specialize (IH h1 j); simpl in IH; exact IH end.
Qed.

(** After the loop, [errN] is the position of an error-role return
    whenever there is one. *)
Lemma parseReturns_loop_errN_keep h outs i :
  Forall (λ t, getReturnType t ≠ returnErr) outs →
  errN (parseReturns_loop h outs i).1 = errN h.
Proof.
  intros Hall. revert h i.
  induction Hall as [|t outs Ht _ IH]; intros h i; simpl; [done|].
  pose proof (getReturnType_not_invalid t).
  destruct (getReturnType t); try done; by rewrite IH.
Qed.

Lemma parseReturns_loop_errN h outs i :
  (∃ t, t ∈ outs ∧ getReturnType t = returnErr) →
  ∃ (k : nat) t, outs !! k = Some t ∧ getReturnType t = returnErr ∧
                 errN (parseReturns_loop h outs i).1 = i + Z.of_nat k.
Proof.
  intros Hex. apply Exists_exists in Hex. revert h i.
  induction outs as [|t outs IH]; intros h i; [by apply Exists_nil in Hex|].
  destruct (decide (Exists (λ t', getReturnType t' = returnErr) outs)) as [Hlater|Hnone].
  - assert (∀ h1, ∃ (k : nat) t1, (t :: outs) !! k = Some t1 ∧
        getReturnType t1 = returnErr ∧
        errN (parseReturns_loop h1 outs (i + 1)).1 = i + Z.of_nat k) as Hstep.
    { intros h1. destruct (IH Hlater h1 (i + 1)) as (k & t1 & Hk & Ht1 & He).
      exists (S k), t1. split_and!; [done|done|lia]. }
    simpl. pose proof (getReturnType_not_invalid t).
    destruct (getReturnType t); try done; apply Hstep.
  - apply Exists_cons in Hex as [Ht|?]; [|done].
    exists 0%nat, t. split_and!; [done|done|].
    simpl. rewrite Ht.
    rewrite parseReturns_loop_errN_keep; [simpl; lia|].
    by apply not_Exists_Forall in Hnone; [|apply _].
Qed.

(** After the loop, [outN] is at or beyond every payload-role position. *)
Lemma parseReturns_loop_outN_mono h outs i :
  outN (parseReturns_loop h outs i).1 = outN h ∨ i <= outN (parseReturns_loop h outs i).1.
Proof.
  revert h i. induction outs as [|t outs IH]; intros h i; simpl; [by left|].
  pose proof (getReturnType_not_invalid t).
  destruct (getReturnType t); try done;
    match goal with |- context [parseReturns_loop ?h1 _ ?j] =>
      destruct (IH h1 j) as [->|?]; simpl; auto; right; lia end.
Qed.

Lemma parseReturns_loop_outN h outs i (k : nat) t :
  outs !! k = Some t → getReturnType t = returnPayload →
  i + Z.of_nat k <= outN (parseReturns_loop h outs i).1.
Proof.
  revert h i k. induction outs as [|t0 outs IH]; intros h i k Hk Ht; [done|].
  destruct k as [|k]; simpl in Hk.
  - injection Hk as ->. simpl. rewrite Ht.
    destruct (parseReturns_loop_outN_mono (set_outN i h) outs (i + 1)) as [->|?];
      simpl; lia.
  - simpl. pose proof (getReturnType_not_invalid t0).
    destruct (getReturnType t0); try done;
      match goal with |- context [parseReturns_loop ?h1 _ ?j] =>
        specialize (IH h1 j k Hk Ht); lia end.
Qed.

(** [parseReturns] rejects a last return that is not the error while
    there is one, and a payload after the first position. *)
Lemma parseReturns_rejects h t :
  error_not_last (Outs t) ∨ payload_not_first (Outs t) →
  ∃ err, (parseReturns h t).2 = Some err.
Proof.
  intros Hshape. unfold parseReturns, NumOut.
  set (h0 := set_positions (-1) (-1) (-1) h).
  set (outs := Outs t) in *.
  destruct (decide (Z.of_nat (length outs) = 0)) as [Hn|Hn].
  { destruct outs; [|done].
    destruct Hshape as [[(? & Hin & _) _]|(i & ? & Hi & _)]; [|done].
    by apply elem_of_nil in Hin. }
  destruct (decide (Z.of_nat (length outs) > 3)); [by eexists|].
  pose proof (parseReturns_loop_ok h0 outs 0) as Hok.
  destruct (parseReturns_loop h0 outs 0) as [h' e] eqn:Hloop.
  simpl in Hok. subst e.
  destruct (decide (_ ∧ _ ∧ _)) as [|Hfirst]; [by eexists|].
  destruct (decide (_ ∧ _ ∧ _)) as [|Hsecond]; [by eexists|].
  exfalso. destruct Hshape as [[Hex (tl & Hlast & Htl)]|(i & ti & Hi & Hi0 & Hpay)].
  - destruct (parseReturns_loop_errN h0 outs 0 Hex) as (k & tk & Hk & Hrole & HerrN).
    rewrite Hloop in HerrN. simpl in HerrN.
    assert (k < length outs)%nat by by eapply lookup_lt_Some.
    assert (k ≠ pred (length outs)).
    { intros ->. rewrite last_lookup in Hlast. congruence. }
    apply Hfirst. lia.
  - pose proof (parseReturns_loop_outN h0 outs 0 i ti Hi Hpay) as Hge.
    rewrite Hloop in Hge. simpl in Hge.
    apply Hsecond. lia.
Qed.

(** [parseArgs] accepts any number of inputs after the context: only
    [NumIn() == 2] is looked at by [parsePayload]. *)
Lemma parseArgs_extra_inputs h ctx a b rest outs c ms :
  Implements_Context ctx = true →
  parseArgs h (TFunc (ctx :: a :: b :: rest) outs c ms) = (h, None).
Proof.
  intros Hctx. unfold parseArgs, validateContext. simpl. rewrite Hctx. simpl.
  unfold parsePayload, NumIn. simpl.
  destruct (decide _) as [|Hn]; [done|].
  exfalso. apply Hn. lia.
Qed.

(** What a handler that [NewHandler] returns is made of. *)
Lemma NewHandler_Returned (f : option (GoValue Data)) h :
  NewHandler f = Returned h →
  ∃ g h1, f = Some g ∧ Kind_of (TypeOf g) = Func ∧
    parseArgs (set_hv_ht g {| fn := f; hv := None; ht := None; payloadType := None;
                              returnType_ := None; takesPayload := false;
                              errN := 0; optsN := 0; outN := 0 |}) (TypeOf g)
      = (h1, None) ∧
    parseReturns h1 (TypeOf g) = (h, None).
Proof.
  unfold NewHandler, parseHandler. simpl.
  destruct f as [g|]; [|done].
  destruct (decide (Kind_of (TypeOf g) ≠ Func)) as [|Hk]; [done|].
  apply dec_stable in Hk.
  destruct (parseArgs _ _) as [h1 [e|]] eqn:Hargs; [done|].
  destruct (parseReturns h1 _) as [h2 [e|]] eqn:Hrets; [done|].
  intros [= ->]. by exists g, h1.
Qed.

Lemma parseReturns_frame h t :
  let h' := (parseReturns h t).1 in
  hv h' = hv h ∧ payloadType h' = payloadType h ∧ takesPayload h' = takesPayload h.
Proof.
  unfold parseReturns.
  set (h0 := set_positions (-1) (-1) (-1) h).
  destruct (decide (NumOut t = 0)); [done|].
  destruct (decide (NumOut t > 3)); [done|].
  pose proof (parseReturns_loop_frame h0 (Outs t) 0) as (_ & Hhv & _ & Hp & Ht).
  pose proof (parseReturns_loop_ok h0 (Outs t) 0) as Hok.
  destruct (parseReturns_loop h0 (Outs t) 0) as [h' e]. simpl in *. subst e.
  repeat case_decide; done.
Qed.

Lemma parseArgs_payloadType h t h1 :
  parseArgs h t = (h1, None) → takesPayload h = false →
  hv h1 = hv h ∧
  (takesPayload h1 = true → ∃ ctx p, Ins t = [ctx; p] ∧ payloadType h1 = Some p).
Proof.
  unfold parseArgs. destruct (Ins t) as [|ctx ins] eqn:Hins; [done|].
  destruct (validateContext ctx); [done|].
  unfold parsePayload, NumIn, In_. rewrite Hins.
  destruct (decide _) as [Hn|Hn]; simpl.
  - intros [= <-] Hno. split; [done|]. congruence.
  - intros [= <-] _. split; [done|]. intros _.
    destruct ins as [|p [|? ?]]; simpl in Hn; try (exfalso; apply Hn; lia).
    by exists ctx, p.
Qed.

(** A constructed handler that takes a payload knows its type, and
    holds the function it was made from. *)
Lemma NewHandler_payloadType (f : option (GoValue Data)) h :
  NewHandler f = Returned h →
  (∃ g, f = Some g ∧ hv h = Some g) ∧
  (takesPayload h = true → ∃ t, payloadType h = Some t).
Proof.
  intros (g & h1 & -> & Hk & Hargs & Hrets)%NewHandler_Returned.
  apply parseArgs_payloadType in Hargs as [Hhv Hp]; [|done].
  pose proof (parseReturns_frame h1 (TypeOf g)) as (Hhv' & Hpt & Htp).
  rewrite Hrets in *. simpl in *. split.
  - exists g. split; [done|]. by rewrite Hhv', Hhv.
  - rewrite Htp, Hpt. intros Ht. destruct (Hp Ht) as (? & p & _ & ?). eauto.
Qed.

(** A candidate in which an error-role return exists and the last
    return is not an error-role one (so there are two or more returns),
    or in which a payload-role return stands at a position other than
    the first, is refused: [NewHandler] panics.  (An error-role return
    before a last return that is error-role too is not refused.) *)
Lemma misplaced_return_rejected g :
  error_not_last (Outs (TypeOf g)) ∨ payload_not_first (Outs (TypeOf g)) →
  ∃ msg, NewHandler (Some g) = Panicked msg.
Proof.
  intros Hshape. unfold NewHandler, parseHandler. simpl.
  destruct (decide (Kind_of (TypeOf g) ≠ Func)); [by eexists|].
  destruct (parseArgs _ _) as [h1 [e|]]; [by eexists|].
  destruct (parseReturns_rejects h1 (TypeOf g) Hshape) as [err Herr].
  destruct (parseReturns h1 _) as [h2 e]. simpl in Herr. subst e. by eexists.
Qed.

(** A single return that is no error and no slice of callbacks is
    taken as the payload, whatever its type. *)
Lemma NewHandler_any_payload g ctx ins ret c ms :
  TypeOf g = TFunc (ctx :: ins) [ret] c ms →
  Implements_Context ctx = true →
  Implements_error ret = false → ¬ is_opts_slice ret →
  ∃ h, NewHandler (Some g) = Returned h ∧ hv h = Some g ∧
       outN h = 0 ∧ errN h = -1 ∧ optsN h = -1.
Proof.
  intros Ht Hctx Herr Hopts.
  pose proof (getReturnType_payload ret Herr Hopts) as Hrole.
  unfold NewHandler, parseHandler. simpl. rewrite Ht. simpl.
  unfold parseArgs, validateContext. simpl. rewrite Hctx. simpl.
  unfold parsePayload, parseReturns, NumOut. simpl.
  destruct (decide (NumIn _ ≠ 2)); simpl; rewrite Hrole; simpl;
    repeat (case_decide; try lia); eexists; split_and!; done.
Qed.

End Validator.

(** ** The dispatcher *)

Section Dispatcher.

Context {Data : Type} (codec : Codec Data).
Implicit Types (h : handler Data) (r : Request) (w : ResponseWriter)
  (l pre post : list (Event Data)) (s : World Data) (res : Response).

(** Unfolds the sequencing of the dispatcher's monad. *)
Ltac run := unfold mbind, M_bind, bind, mret, M_ret, ret, emit, get_rw, put_rw; simpl.

Lemma append_empty (p : string) : p +:+ EmptyString = p.
Proof.
  induction p as [|c p IH]; [done|].
  change (String c (p +:+ EmptyString) = String c p). by rewrite IH.
Qed.

Lemma Errorf_bad_request (err : error) :
  Errorf StatusBadRequest "Bad request: %w" [err]
  = HandlerErr StatusBadRequest ("Bad request: " +:+ err_Error err) (Some err).
Proof.
  unfold Errorf, fmt_Errorf, wrapped_w. cbn [Sprintf_w count_w err_Error Unwrap head].
  rewrite append_empty. reflexivity.
Qed.

Lemma with_header_id w : with_header (handlerHeader w) w = w.
Proof. by destruct w. Qed.

(** With the indentation of [writeJSON], the document of an [errResp]
    is [errResp_document]. *)
Lemma Encode_errResp (e : errResp) :
  Encode codec (SetIndent EmptyString "  " json_NewEncoder) (OfErrResp e) = Some (errResp_document codec e).
Proof. reflexivity. Qed.

Lemma Encode_value (v : Value Data) :
  Encode codec (SetIndent EmptyString "  " json_NewEncoder) (OfValue v) = json_Marshal codec v.
Proof. reflexivity. Qed.

(** *** The calls of the response writer *)

Lemma w_WriteHeader_first code w l :
  wroteHeader w = false → valid_code code →
  w_WriteHeader code {| rw := w; log := l |}
  = (Returned (),
     {| rw := {| handlerHeader := handlerHeader w; wroteHeader := true;
                 status := code; sentHeader := handlerHeader w;
                 written := written w |};
        log := l ++ [EvWriteHeader code] |}).
Proof.
  intros Hfresh Hcode. unfold w_WriteHeader, commit. run. rewrite Hfresh.
  by destruct (decide (valid_code code)).
Qed.

Lemma w_WriteHeader_invalid code w l :
  wroteHeader w = false → ¬ valid_code code →
  w_WriteHeader code {| rw := w; log := l |}
  = (Panicked "invalid WriteHeader code",
     {| rw := w; log := l ++ [EvWriteHeader code] |}).
Proof.
  intros Hfresh Hcode. unfold w_WriteHeader, commit. run. rewrite Hfresh.
  by destruct (decide (valid_code code)).
Qed.

Lemma w_WriteHeader_later code w l :
  wroteHeader w = true →
  w_WriteHeader code {| rw := w; log := l |}
  = (Returned (), {| rw := w; log := l ++ [EvWriteHeader code] |}).
Proof. intros Hsent. unfold w_WriteHeader. run. by rewrite Hsent. Qed.

Lemma w_Write_committed p w l :
  wroteHeader w = true →
  w_Write p {| rw := w; log := l |}
  = (Returned (),
     {| rw := {| handlerHeader := handlerHeader w; wroteHeader := true;
                 status := status w; sentHeader := sentHeader w;
                 written := written w +:+ p |};
        log := l ++ [EvWrite p] |}).
Proof.
  intros Hsent. unfold w_Write, commit. run. rewrite Hsent. simpl. by rewrite Hsent.
Qed.

(** The callbacks run in order, each on the carrier the previous one
    left, over the writer's header map. *)
Lemma range_opts_run i opts res w l :
  let res0 := {| hd := handlerHeader w; StatusCode := StatusCode res;
                 cookies := cookies res |} in
  ∃ res', range_opts i opts res {| rw := w; log := l |}
          = (Returned res',
             {| rw := with_header (hd (apply_opts opts res0)) w;
                log := l ++ map EvCallback (seq i (length opts)) |})
          ∧ StatusCode res' = StatusCode (apply_opts opts res0)
          ∧ cookies res' = cookies (apply_opts opts res0).
Proof.
  revert i res w l. induction opts as [|o opts IH]; intros i res w l; simpl.
  - exists res. rewrite with_header_id, app_nil_r. done.
  - set (res1 := o _).
    destruct (IH (S i) res1 (with_header (hd res1) w) (l ++ [EvCallback i]))
      as (res' & Hrun & Hcode & Hcookies).
    exists res'. simpl in *.
    assert ({| hd := hd res1; StatusCode := StatusCode res1; cookies := cookies res1 |}
            = res1) as Heta by by destruct res1.
    rewrite Heta in *. split_and!; [|done|done].
    unfold call_opt. run. fold res1. rewrite Hrun, <-app_assoc. done.
Qed.

Lemma range_cookies_run cs w l :
  range_cookies cs {| rw := w; log := l |}
  = (Returned (),
     {| rw := with_header (add_cookies cs (handlerHeader w)) w;
        log := l ++ cookie_events cs |}).
Proof.
  revert w l. induction cs as [|c cs IH]; intros w l; simpl.
  - by rewrite with_header_id, app_nil_r.
  - unfold mbind, M_bind, bind, http_SetCookie.
    destruct (decide (Cookie_String c ≠ EmptyString)); simpl.
    + rewrite IH. simpl. by rewrite <-app_assoc.
    + by rewrite IH.
Qed.

(** [writeJSON] up to its [WriteHeader], when the document encodes:
    the callbacks, the content type and the cookies. *)
Lemma writeJSON_encoded_prefix h code out opts doc w l :
  Encode codec (SetIndent EmptyString "  " json_NewEncoder) out = Some doc →
  let res' := apply_opts opts {| hd := handlerHeader w; StatusCode := code;
                                 cookies := [] |} in
  let hdr := add_cookies (cookies res')
               (Header_Set "content-type" "application/json; charset=utf-8" (hd res')) in
  writeJSON codec h code out opts {| rw := w; log := l |}
  = (w_WriteHeader (StatusCode res');; io_Copy doc)
      {| rw := with_header hdr w;
         log := l ++ map EvCallback (seq 0 (length opts))
                  ++ [EvHeaderSet "content-type" "application/json; charset=utf-8"]
                  ++ cookie_events (cookies res') |}.
Proof.
  intros Henc res' hdr. unfold writeJSON. cbv zeta. rewrite Henc.
  destruct (range_opts_run 0 opts
              {| hd := handlerHeader w; StatusCode := code; cookies := [] |} w l)
    as (res1 & Hrun & Hcode & Hcookies).
  simpl in Hrun, Hcode, Hcookies. fold res' in Hrun, Hcode, Hcookies.
  run. rewrite Hrun. simpl. rewrite range_cookies_run. simpl.
  rewrite Hcookies, Hcode. fold hdr.
  repeat rewrite <-app_assoc. done.
Qed.

(** [writeJSON] when the document encodes and the status code the
    callbacks leave is one [WriteHeader] takes. *)
Lemma writeJSON_encoded h code out opts doc w l :
  Encode codec (SetIndent EmptyString "  " json_NewEncoder) out = Some doc → wroteHeader w = false →
  let res' := apply_opts opts {| hd := handlerHeader w; StatusCode := code;
                                 cookies := [] |} in
  let hdr := add_cookies (cookies res')
               (Header_Set "content-type" "application/json; charset=utf-8" (hd res')) in
  valid_code (StatusCode res') →
  writeJSON codec h code out opts {| rw := w; log := l |}
  = (Returned (),
     {| rw := {| handlerHeader := hdr; wroteHeader := true;
                 status := StatusCode res'; sentHeader := hdr;
                 written := written w +:+ doc |};
        log := l ++ map EvCallback (seq 0 (length opts))
                 ++ [EvHeaderSet "content-type" "application/json; charset=utf-8"]
                 ++ cookie_events (cookies res')
                 ++ [EvWriteHeader (StatusCode res')]
                 ++ (if decide (doc = EmptyString) then [] else [EvWrite doc]) |}).
Proof.
  intros Henc Hfresh res' hdr Hvalid.
  rewrite (writeJSON_encoded_prefix h code out opts doc w l Henc).
  fold res' hdr. unfold mbind, M_bind, bind.
  rewrite w_WriteHeader_first by done. simpl.
  unfold io_Copy. destruct (decide (doc = EmptyString)) as [->|Hdoc]; simpl.
  - rewrite append_empty. repeat rewrite <-app_assoc. done.
  - rewrite w_Write_committed by done. simpl.
    repeat rewrite <-app_assoc. done.
Qed.

(** [writeJSON] when the document encodes and the status code the
    callbacks leave is outside 100..999: [WriteHeader] panics, after the
    headers have been set; no status line and no body are written. *)
Lemma writeJSON_invalid_code h code out opts doc w l :
  Encode codec (SetIndent EmptyString "  " json_NewEncoder) out = Some doc → wroteHeader w = false →
  let res' := apply_opts opts {| hd := handlerHeader w; StatusCode := code;
                                 cookies := [] |} in
  let hdr := add_cookies (cookies res')
               (Header_Set "content-type" "application/json; charset=utf-8" (hd res')) in
  ¬ valid_code (StatusCode res') →
  writeJSON codec h code out opts {| rw := w; log := l |}
  = (Panicked "invalid WriteHeader code",
     {| rw := with_header hdr w;
        log := l ++ map EvCallback (seq 0 (length opts))
                 ++ [EvHeaderSet "content-type" "application/json; charset=utf-8"]
                 ++ cookie_events (cookies res')
                 ++ [EvWriteHeader (StatusCode res')] |}).
Proof.
  intros Henc Hfresh res' hdr Hvalid.
  rewrite (writeJSON_encoded_prefix h code out opts doc w l Henc).
  fold res' hdr. unfold mbind, M_bind, bind.
  rewrite w_WriteHeader_invalid by done.
  repeat rewrite <-app_assoc. done.
Qed.

(** [http.Error] on a writer that has not sent its header. *)
Lemma http_Error_run msg code w l :
  wroteHeader w = false → valid_code code →
  let sent := Header_Set "X-Content-Type-Options" "nosniff"
                (Header_Set "Content-Type" "text/plain; charset=utf-8"
                   (handlerHeader w)) in
  http_Error msg code {| rw := w; log := l |}
  = (Returned (),
     {| rw := {| handlerHeader := sent; wroteHeader := true; status := code;
                 sentHeader := sent; written := written w +:+ msg +:+ nl |};
        log := l ++ [EvHeaderSet "Content-Type" "text/plain; charset=utf-8";
                     EvHeaderSet "X-Content-Type-Options" "nosniff";
                     EvWriteHeader code; EvWrite (msg +:+ nl)] |}).
Proof.
  intros Hfresh Hcode. unfold http_Error. run.
  rewrite w_WriteHeader_first by done. simpl.
  rewrite w_Write_committed by done. simpl.
  repeat rewrite <-app_assoc. done.
Qed.

(** [writeJSON] when [enc.Encode] fails: [http.Error] has committed the
    500 and written its text before the rest of the function runs; the
    [WriteHeader] at the end is a second one, which the writer ignores
    whatever its code. *)
Lemma writeJSON_encode_error h code out opts w l :
  Encode codec (SetIndent EmptyString "  " json_NewEncoder) out = None → wroteHeader w = false →
  let sent := Header_Set "X-Content-Type-Options" "nosniff"
                (Header_Set "Content-Type" "text/plain; charset=utf-8"
                   (handlerHeader w)) in
  let res' := apply_opts opts {| hd := sent; StatusCode := code; cookies := [] |} in
  ∃ hdr,
    writeJSON codec h code out opts {| rw := w; log := l |}
    = (Returned (),
       {| rw := {| handlerHeader := hdr; wroteHeader := true;
                   status := StatusInternalServerError; sentHeader := sent;
                   written := written w +:+ "Internal error: Encoding response failed" +:+ nl |};
          log := l ++ [EvHeaderSet "Content-Type" "text/plain; charset=utf-8";
                       EvHeaderSet "X-Content-Type-Options" "nosniff";
                       EvWriteHeader StatusInternalServerError;
                       EvWrite ("Internal error: Encoding response failed" +:+ nl)]
                   ++ map EvCallback (seq 0 (length opts))
                   ++ [EvHeaderSet "content-type" "application/json; charset=utf-8"]
                   ++ cookie_events (cookies res')
                   ++ [EvWriteHeader (StatusCode res')] |}).
Proof.
  intros Henc Hfresh. cbv zeta. unfold writeJSON. rewrite Henc.
  unfold mbind, M_bind, bind, get_rw, mret, M_ret, ret. simpl.
  rewrite http_Error_run by (done || (unfold valid_code, StatusInternalServerError; lia)).
  simpl.
  match goal with |- context [range_opts 0 opts ?res0 {| rw := ?w0; log := ?l0 |}] =>
    destruct (range_opts_run 0 opts res0 w0 l0) as (res1 & Hrun & Hcode & Hcookies)
  end.
  simpl in Hrun, Hcode, Hcookies.
  rewrite Hrun. simpl. rewrite range_cookies_run. simpl.
  rewrite ?w_WriteHeader_later by done. simpl.
  rewrite Hcookies, Hcode.
  eexists. repeat rewrite <-app_assoc. simpl. reflexivity.
Qed.

(** [handleError]: the document of an [errResp] always encodes. *)
Lemma handleError_run h err w l msg code :
  wroteHeader w = false →
  match errors_As err with
  | Some (jcode, jmessage) => (jmessage, jcode)
  | None => (err_Error err, StatusInternalServerError)
  end = (msg, code) →
  valid_code code →
  let doc := errResp_document codec {| Message := msg |} in
  let hdr := Header_Set "content-type" "application/json; charset=utf-8"
               (handlerHeader w) in
  handleError codec h err {| rw := w; log := l |}
  = (Returned (),
     {| rw := {| handlerHeader := hdr; wroteHeader := true; status := code;
                 sentHeader := hdr; written := written w +:+ doc |};
        log := l ++ [EvHeaderSet "content-type" "application/json; charset=utf-8";
                     EvWriteHeader code; EvWrite doc] |}).
Proof.
  intros Hfresh Htr Hvalid doc hdr. unfold handleError. rewrite Htr.
  rewrite (writeJSON_encoded h code _ [] doc w l (Encode_errResp _) Hfresh Hvalid).
  simpl. destruct (decide (doc = EmptyString)) as [Hdoc|]; [|done].
  by exfalso.
Qed.

(** [handleError] with a code outside 100..999: [WriteHeader] panics. *)
Lemma handleError_invalid_code h err w l msg code :
  wroteHeader w = false →
  match errors_As err with
  | Some (jcode, jmessage) => (jmessage, jcode)
  | None => (err_Error err, StatusInternalServerError)
  end = (msg, code) →
  ¬ valid_code code →
  let hdr := Header_Set "content-type" "application/json; charset=utf-8"
               (handlerHeader w) in
  handleError codec h err {| rw := w; log := l |}
  = (Panicked "invalid WriteHeader code",
     {| rw := with_header hdr w;
        log := l ++ [EvHeaderSet "content-type" "application/json; charset=utf-8";
                     EvWriteHeader code] |}).
Proof.
  intros Hfresh Htr Hvalid hdr. unfold handleError. rewrite Htr.
  by rewrite (writeJSON_invalid_code h code _ [] _ w l (Encode_errResp _) Hfresh Hvalid).
Qed.

(** *** Header bookkeeping *)

Lemma Header_Get_Set key value (hdr : Header) :
  Header_Get key (Header_Set key value hdr) = value.
Proof. unfold Header_Get, Header_Set. by rewrite lookup_insert_eq. Qed.

Lemma Header_Get_Set_ne key key' value (hdr : Header) :
  CanonicalMIMEHeaderKey key' ≠ CanonicalMIMEHeaderKey key →
  Header_Get key (Header_Set key' value hdr) = Header_Get key hdr.
Proof. intros Hne. unfold Header_Get, Header_Set. by rewrite lookup_insert_ne. Qed.

Lemma Header_Get_add_cookies key cs (hdr : Header) :
  CanonicalMIMEHeaderKey "Set-Cookie" ≠ CanonicalMIMEHeaderKey key →
  Header_Get key (add_cookies cs hdr) = Header_Get key hdr.
Proof.
  intros Hne. revert hdr. induction cs as [|c cs IH]; intros hdr; simpl; [done|].
  rewrite IH. case_decide; [|done].
  unfold Header_Get, Header_Add. by rewrite lookup_insert_ne.
Qed.

(** *** The request up to the function's return *)

Lemma ServeHTTP_invoked h r responses w l :
  invocation codec h r = Some responses →
  ServeHTTP codec h r {| rw := w; log := l |}
  = ServeHTTP_respond codec h responses
      {| rw := w; log := l ++ prologue codec h r |}.
Proof.
  unfold invocation, prologue, call_args, ServeHTTP, ServeHTTP_call, hv_Call.
  destruct (takesPayload h).
  - destruct (payloadType h) as [t|]; [|done]. simpl.
    destruct (json_Decode codec t (Body r)) as [pl|err]; [|done]. simpl.
    destruct (hv h) as [g|]; [|done]. simpl.
    destruct (Call g _) as [rs|msg]; [|done]. intros [= ->].
    unfold mbind, M_bind, bind, emit. simpl. by rewrite <-app_assoc.
  - simpl. destruct (hv h) as [g|]; [|done]. simpl.
    destruct (Call g _) as [rs|msg]; [|done]. intros [= ->].
    unfold mbind, M_bind, bind, emit. simpl. done.
Qed.

Lemma ServeHTTP_decode_error h r t err w l :
  takesPayload h = true → payloadType h = Some t →
  json_Decode codec t (Body r) = inr err → wroteHeader w = false →
  let doc := errResp_document codec
               {| Message := "Bad request: " +:+ err_Error err |} in
  let hdr := Header_Set "content-type" "application/json; charset=utf-8"
               (handlerHeader w) in
  ServeHTTP codec h r {| rw := w; log := l |}
  = (Returned (),
     {| rw := {| handlerHeader := hdr; wroteHeader := true;
                 status := StatusBadRequest; sentHeader := hdr;
                 written := written w +:+ doc |};
        log := l ++ [EvHeaderSet "content-type" "application/json; charset=utf-8";
                     EvWriteHeader StatusBadRequest; EvWrite doc; EvBodyClose] |}).
Proof.
  intros Htp Hpt Hdec Hfresh doc hdr. unfold ServeHTTP.
  rewrite Htp, Hpt, Hdec, Errorf_bad_request.
  unfold mbind, M_bind, bind.
  rewrite (handleError_run h _ w l ("Bad request: " +:+ err_Error err)
             StatusBadRequest Hfresh); [|done|unfold valid_code, StatusBadRequest; lia].
  simpl. unfold emit. simpl. by rewrite <-?app_assoc.
Qed.

(** A request whose arguments cannot be built: the payload type is
    missing (a panic), or the body does not decode. *)
Lemma ServeHTTP_no_args h r w l :
  call_args codec h r = None →
  takesPayload h = true ∧
  ((payloadType h = None ∧
    ServeHTTP codec h r {| rw := w; log := l |}
    = (Panicked "reflect: New(nil)", {| rw := w; log := l |})) ∨
   (∃ t err, payloadType h = Some t ∧ json_Decode codec t (Body r) = inr err)).
Proof.
  unfold call_args, ServeHTTP.
  destruct (takesPayload h); [|done].
  destruct (payloadType h) as [t|]; simpl; [|intros _; split; [done|by left]].
  destruct (json_Decode codec t (Body r)) as [pl|err] eqn:Hdec; [done|].
  intros _. split; [done|]. right. by exists t, err.
Qed.

(** A request whose call [reflect] refuses: the function is not
    entered, and nothing reaches the response writer. *)
Lemma ServeHTTP_call_panics h r args w l :
  call_args codec h r = Some args →
  invocation codec h r = None →
  ∃ msg, ServeHTTP codec h r {| rw := w; log := l |}
         = (Panicked msg,
            {| rw := w;
               log := l ++ (if takesPayload h then [EvBodyClose] else []) |}).
Proof.
  unfold invocation, call_args, ServeHTTP, ServeHTTP_call, hv_Call.
  destruct (takesPayload h).
  - destruct (payloadType h) as [t|]; [|done]. simpl.
    destruct (json_Decode codec t (Body r)) as [pl|err]; [|done]. simpl.
    intros [= <-]. unfold mbind, M_bind, bind, emit. simpl.
    destruct (hv h) as [f|]; simpl; [|intros _; by eexists].
    destruct (Call f _) as [rs|msg]; [done|]. intros _. by eexists.
  - simpl. intros [= <-]. unfold mbind, M_bind, bind, emit. simpl.
    rewrite app_nil_r.
    destruct (hv h) as [f|]; simpl; [|intros _; by eexists].
    destruct (Call f _) as [rs|msg]; [done|]. intros _. by eexists.
Qed.

Lemma collect_error_declared h responses out e opts :
  collect h responses = Some (out, Some e, opts) → 0 <= errN h.
Proof.
  unfold collect. intros Hc.
  destruct (decide (errN h >= 0)); [lia|].
  destruct (if decide (outN h >= 0) then _ else _); simpl in Hc; [|done].
  destruct (if decide (optsN h >= 0) then _ else _); simpl in Hc; done.
Qed.

(** [errors.As] finds the first [HandlerErr] of the cause chain. *)
Lemma errors_As_chain :
  ∀ e, errors_As e
       = match find is_HandlerErr (cause_chain e) with
         | Some (HandlerErr code message _) => Some (code, message)
         | _ => None
         end.
Proof.
  fix IH 1. intros [s [c|]|code message c]; simpl; [apply IH|done|done].
Qed.

Lemma ServeHTTP_respond_value h responses out opts s :
  ¬ (outN h < 0 ∧ errN h < 0) →
  collect h responses = Some (out, None, opts) →
  ServeHTTP_respond codec h responses s
  = writeJSON codec h StatusOK (OfValue out) opts s.
Proof.
  intros Hdecl Hc. unfold ServeHTTP_respond. rewrite Hc.
  by destruct (decide (outN h < 0 ∧ errN h < 0)).
Qed.

Lemma ServeHTTP_respond_error h responses out e opts s :
  collect h responses = Some (out, Some e, opts) →
  ServeHTTP_respond codec h responses s = handleError codec h e s.
Proof.
  intros Hc. pose proof (collect_error_declared _ _ _ _ _ Hc).
  unfold ServeHTTP_respond. rewrite Hc.
  destruct (decide (outN h < 0 ∧ errN h < 0)); [lia|done].
Qed.

Lemma ServeHTTP_respond_bare h responses w l :
  outN h < 0 → errN h < 0 → wroteHeader w = false →
  ServeHTTP_respond codec h responses {| rw := w; log := l |}
  = (Returned (),
     {| rw := {| handlerHeader := handlerHeader w; wroteHeader := true;
                 status := StatusOK; sentHeader := handlerHeader w;
                 written := written w |};
        log := l ++ [EvWriteHeader StatusOK] |}).
Proof.
  intros Hout Herr Hfresh. unfold ServeHTTP_respond.
  destruct (decide (outN h < 0 ∧ errN h < 0)); [|lia].
  apply w_WriteHeader_first; [done|]. unfold valid_code, StatusOK. lia.
Qed.

(** *** What the response writer is asked to do *)

Lemma sink_callbacks i n :
  Forall (λ e : Event Data, is_sink e = true) (map EvCallback (seq i n)).
Proof. apply Forall_map, Forall_forall. done. Qed.

Lemma sink_cookie_events cs :
  Forall (λ e : Event Data, is_sink e = true) (cookie_events cs).
Proof.
  unfold cookie_events. induction cs as [|c cs IH]; simpl; [done|].
  destruct (decide (Cookie_String c ≠ EmptyString)); simpl; [|done].
  by constructor.
Qed.

Ltac sink_log :=
  repeat match goal with
    | |- Forall _ (_ ++ _) => apply Forall_app; split
    | |- Forall _ (map EvCallback _) => apply sink_callbacks
    | |- Forall _ (cookie_events _) => apply sink_cookie_events
    | |- Forall _ (if ?d then _ else _) => destruct d
    | |- Forall _ (_ :: _) => constructor; [done|]
    | |- Forall _ [] => constructor
    end.

(** After the function has returned the handler only talks to the
    response writer.  It panics before any call of the writer when the
    responses cannot be collected.  When it returns, the status line has
    been committed; when it panics, no status line and no body have
    been written. *)
Lemma ServeHTTP_respond_outcome h responses w l :
  wroteHeader w = false →
  let res := ServeHTTP_respond codec h responses {| rw := w; log := l |} in
  (∃ l', log res.2 = l ++ l' ∧ Forall (λ e, is_sink e = true) l') ∧
  (¬ (outN h < 0 ∧ errN h < 0) → collect h responses = None →
     (∃ msg, res.1 = Panicked msg) ∧ res.2 = {| rw := w; log := l |}) ∧
  match res.1 with
  | Returned _ => wroteHeader (rw res.2) = true
  | Panicked _ =>
      wroteHeader (rw res.2) = false ∧ written (rw res.2) = written w ∧
      sentHeader (rw res.2) = sentHeader w
  end.
Proof.
  intros Hfresh.
  destruct (decide (outN h < 0 ∧ errN h < 0)) as [[Hout Herr]|Hdecl].
  { rewrite (ServeHTTP_respond_bare h responses w l Hout Herr Hfresh). simpl.
    split_and!; [|lia|done].
    eexists. split; [done|]. by repeat constructor. }
  unfold ServeHTTP_respond.
  destruct (decide (outN h < 0 ∧ errN h < 0)) as [|_]; [done|].
  destruct (collect h responses) as [[[out [e|]] opts]|] eqn:Hc.
  - destruct (match errors_As e with
              | Some (jcode, jmessage) => (jmessage, jcode)
              | None => (err_Error e, StatusInternalServerError)
              end) as [msg code] eqn:Htr.
    destruct (decide (valid_code code)) as [Hv|Hv].
    + rewrite (handleError_run h e w l msg code Hfresh Htr Hv). simpl.
      split_and!; [|done|done].
      eexists. split; [done|]. by repeat constructor.
    + rewrite (handleError_invalid_code h e w l msg code Hfresh Htr Hv). simpl.
      split_and!; try done.
      eexists. split; [done|]. by repeat constructor.
  - destruct (json_Marshal codec out) as [doc|] eqn:Henc.
    + destruct (decide (valid_code (StatusCode (apply_opts opts
                  {| hd := handlerHeader w; StatusCode := StatusOK; cookies := [] |}))))
        as [Hv|Hv].
      * rewrite (writeJSON_encoded h StatusOK (OfValue out) opts doc w l Henc Hfresh Hv).
        simpl. split_and!; [|done|done].
        eexists. split; [done|]. sink_log.
      * rewrite (writeJSON_invalid_code h StatusOK (OfValue out) opts doc w l
                   Henc Hfresh Hv).
        simpl. split_and!; try done.
        eexists. split; [done|]. sink_log.
    + destruct (writeJSON_encode_error h StatusOK (OfValue out) opts w l
                  Henc Hfresh) as [hdr ->].
      simpl. split_and!; [|done|done].
      eexists. split; [done|]. sink_log.
  - simpl. split_and!; try done.
    + exists []. by rewrite app_nil_r.
    + intros _ _. split; [by eexists|done].
Qed.

(** The log of a request, in the ways it can go: the arguments cannot
    be built; [reflect] refuses the call; or the function is entered,
    and only the response writer is called after that. *)
Lemma serve_log h r :
  let res := serve codec h r in
  match call_args codec h r with
  | None =>
      log res.2 = [] ∨
      (takesPayload h = true ∧ ∃ doc code,
         log res.2 = [EvHeaderSet "content-type" "application/json; charset=utf-8";
                      EvWriteHeader code; EvWrite doc; EvBodyClose])
  | Some args =>
      match invocation codec h r with
      | None => log res.2 = if takesPayload h then [EvBodyClose] else []
      | Some _ =>
          ∃ l', log res.2 = prologue codec h r ++ l' ∧
                Forall (λ e, is_sink e = true) l'
      end
  end.
Proof.
  unfold serve, fresh. simpl.
  destruct (call_args codec h r) as [args|] eqn:Hargs.
  - destruct (invocation codec h r) as [responses|] eqn:Hinv.
    + rewrite (ServeHTTP_invoked _ _ _ _ _ Hinv).
      destruct (ServeHTTP_respond_outcome h responses NewRecorder
                  ([] ++ prologue codec h r) eq_refl) as [Hlog _].
      exact Hlog.
    + by destruct (ServeHTTP_call_panics h r args NewRecorder [] Hargs Hinv) as [msg ->].
  - destruct (ServeHTTP_no_args h r NewRecorder [] Hargs)
      as [Htp [[_ ->]|(t & err & Ht & Hdec)]]; [by left|].
    rewrite (ServeHTTP_decode_error h r t err NewRecorder [] Htp Ht Hdec eq_refl).
    right. split; [done|]. by eexists _, _.
Qed.

(** *** The claims about the dispatcher *)

(** C3.  When the payload-role value of a request does not encode, the
    response is the one [http.Error] commits: status 500, the fixed text
    "Internal error: Encoding response failed" as plain text.  It is not
    the response of the error translation: not JSON, and no [errResp]
    document. *)
Theorem encode_failure_fixed_500 h r responses out opts :
  invocation codec h r = Some responses →
  0 <= outN h →
  collect h responses = Some (out, None, opts) →
  json_Marshal codec out = None →
  let res := serve codec h r in
  res.1 = Returned () ∧
  wroteHeader (rw res.2) = true ∧
  status (rw res.2) = 500 ∧
  written (rw res.2) = "Internal error: Encoding response failed" +:+ nl ∧
  Header_Get "Content-Type" (sentHeader (rw res.2)) = "text/plain; charset=utf-8" ∧
  (∀ msg, written (rw res.2) ≠ errResp_document codec {| Message := msg |}).
Proof.
  intros Hinv Hout Hc Henc. unfold serve, fresh.
  rewrite (ServeHTTP_invoked _ _ _ _ _ Hinv).
  rewrite (ServeHTTP_respond_value h responses out opts _ ltac:(lia) Hc).
  destruct (writeJSON_encode_error h StatusOK (OfValue out) opts NewRecorder
              ([] ++ prologue codec h r) Henc eq_refl) as [hdr ->].
  simpl. split_and!; done.
Qed.

(** C5.  A constructed handler that takes a payload has a payload type.
    If the body does not decode into it, the response is 400 with the
    body [{"error": m}] on three lines, the member indented by two
    spaces, where [m] is the JSON string of "Bad request: " followed by
    the decode error; the handler calls [Header().Set], [WriteHeader],
    [Write] and [Body.Close] and nothing else, so the wrapped function
    is not called and the body is closed.  If the body decodes, the body
    is closed as well. *)
Theorem decode_failure_bad_request f h r :
  NewHandler f = Returned h →
  takesPayload h = true →
  ∃ t, payloadType h = Some t ∧
    (∀ err, json_Decode codec t (Body r) = inr err →
       let res := serve codec h r in
       let doc :=
         "{" +:+ String "010"%char
           ("  " +:+ String "034"%char ("error" +:+ String "034"%char
              (": " +:+ json_String codec ("Bad request: " +:+ err_Error err)
               +:+ String "010"%char ("}" +:+ String "010"%char EmptyString)))) in
       res.1 = Returned () ∧
       status (rw res.2) = 400 ∧
       written (rw res.2) = doc ∧
       log res.2 = [EvHeaderSet "content-type" "application/json; charset=utf-8";
                    EvWriteHeader 400; EvWrite doc; EvBodyClose]) ∧
    (∀ pl, json_Decode codec t (Body r) = inl pl →
       EvBodyClose ∈ log (serve codec h r).2).
Proof.
  intros Hnew Htp.
  destruct (NewHandler_payloadType f h Hnew) as [_ Hpt].
  destruct (Hpt Htp) as [t Ht]. exists t. split_and!; [done| |].
  - intros err Hdec. unfold serve, fresh.
    rewrite (ServeHTTP_decode_error h r t err NewRecorder [] Htp Ht Hdec eq_refl).
    done.
  - intros pl Hdec. pose proof (serve_log h r) as Hlog. simpl in Hlog.
    assert (call_args codec h r = Some [VCtx r; VData pl]) as Hargs.
    { unfold call_args. rewrite Htp, Ht. simpl. by rewrite Hdec. }
    rewrite Hargs in Hlog. unfold prologue in Hlog. rewrite Hargs, Htp in Hlog.
    destruct (invocation codec h r).
    + destruct Hlog as (l' & -> & _). left.
    + rewrite Hlog. left.
Qed.

(** C6, as amended.  When the wrapped function returns a non-nil error
    and the responses can be collected (a value in a declared callback
    position is a [[]ResponseFunc]): if the error or one of its causes
    is a [HandlerErr], the first such error decides; with a code in
    100..999 the response has that code and its message, with any other
    code [WriteHeader] panics and no status line and no body are
    written.  If no error of the chain is a [HandlerErr], the response
    has status 500 and the error's own string.  The body of a response
    is [{"error": m}] on three lines, the member indented by two spaces,
    [m] being the JSON string of the message. *)
Theorem error_translation h r responses out e opts :
  invocation codec h r = Some responses →
  collect h responses = Some (out, Some e, opts) →
  let res := serve codec h r in
  let document (message : string) :=
    "{" +:+ String "010"%char
      ("  " +:+ String "034"%char ("error" +:+ String "034"%char
         (": " +:+ json_String codec message
          +:+ String "010"%char ("}" +:+ String "010"%char EmptyString)))) in
  (∀ code message cause,
     find is_HandlerErr (cause_chain e) = Some (HandlerErr code message cause) →
     (100 <= code <= 999 →
        res.1 = Returned () ∧
        status (rw res.2) = code ∧
        written (rw res.2) = document message) ∧
     (¬ (100 <= code <= 999) →
        res.1 = Panicked "invalid WriteHeader code" ∧
        wroteHeader (rw res.2) = false ∧
        written (rw res.2) = EmptyString)) ∧
  (Forall (λ c, is_HandlerErr c = false) (cause_chain e) →
     res.1 = Returned () ∧
     status (rw res.2) = 500 ∧
     written (rw res.2) = document (err_Error e)).
Proof.
  intros Hinv Hc. unfold serve, fresh.
  rewrite (ServeHTTP_invoked _ _ _ _ _ Hinv).
  rewrite (ServeHTTP_respond_error _ _ _ _ _ _ Hc).
  destruct (match errors_As e with
            | Some (jcode, jmessage) => (jmessage, jcode)
            | None => (err_Error e, StatusInternalServerError)
            end) as [msg code] eqn:Htr.
  rewrite errors_As_chain in Htr. cbv zeta. split.
  - intros c m cause Hfind. rewrite Hfind in Htr. injection Htr as <- <-.
    assert (match errors_As e with
            | Some (jcode, jmessage) => (jmessage, jcode)
            | None => (err_Error e, StatusInternalServerError)
            end = (m, c)) as Htr by (by rewrite errors_As_chain, Hfind).
    split; intros Hcode.
    + by rewrite (handleError_run h e NewRecorder _ m c eq_refl Htr Hcode).
    + by rewrite (handleError_invalid_code h e NewRecorder _ m c eq_refl Htr Hcode).
  - intros Hnone.
    destruct (find is_HandlerErr (cause_chain e)) as [x|] eqn:Hfind.
    + apply find_some in Hfind as [Hin Hx].
      rewrite Forall_forall in Hnone. apply list_elem_of_In, Hnone in Hin. congruence.
    + injection Htr as <- <-.
      assert (match errors_As e with
              | Some (jcode, jmessage) => (jmessage, jcode)
              | None => (err_Error e, StatusInternalServerError)
              end = (err_Error e, StatusInternalServerError)) as Htr
        by (by rewrite errors_As_chain, Hfind).
      rewrite (handleError_run h e NewRecorder _ _ _ eq_refl Htr);
        [done|unfold valid_code, StatusInternalServerError; lia].
Qed.

(** C7, as amended.  When the wrapped function returns a payload-role
    value and no error, the responses can be collected, and the value
    encodes with no prefix and an indentation of two spaces: the
    callbacks run in order on the carrier before [WriteHeader], which is
    given the carrier's status code.  If that code lies in 100..999 the
    response has it as status, the body is the indented document and the
    content type committed is "application/json; charset=utf-8"; so a
    last callback that sets the status code to 201 makes the response
    status 201, with the same body.  With any other code [WriteHeader]
    panics, and no status line and no body are written. *)
Theorem success_response h r responses out opts doc :
  invocation codec h r = Some responses →
  0 <= outN h →
  collect h responses = Some (out, None, opts) →
  json_Encode codec EmptyString "  " out = Some doc →
  let res := serve codec h r in
  let carrier := apply_opts opts {| hd := ∅; StatusCode := 200; cookies := [] |} in
  let before_WriteHeader :=
    prologue codec h r
    ++ map EvCallback (seq 0 (length opts))
    ++ [EvHeaderSet "content-type" "application/json; charset=utf-8"]
    ++ cookie_events (cookies carrier) in
  (100 <= StatusCode carrier <= 999 →
     res.1 = Returned () ∧
     written (rw res.2) = doc ∧
     Header_Get "content-type" (sentHeader (rw res.2))
       = "application/json; charset=utf-8" ∧
     status (rw res.2) = StatusCode carrier ∧
     log res.2 = before_WriteHeader
                 ++ [EvWriteHeader (StatusCode carrier)]
                 ++ (if decide (doc = EmptyString) then [] else [EvWrite doc])) ∧
  (∀ before o, opts = before ++ [o] → (∀ c, StatusCode (o c) = 201) →
     res.1 = Returned () ∧
     status (rw res.2) = 201 ∧
     written (rw res.2) = doc) ∧
  (¬ (100 <= StatusCode carrier <= 999) →
     res.1 = Panicked "invalid WriteHeader code" ∧
     wroteHeader (rw res.2) = false ∧
     written (rw res.2) = EmptyString ∧
     log res.2 = before_WriteHeader ++ [EvWriteHeader (StatusCode carrier)]).
Proof.
  intros Hinv Hout Hc Henc. unfold serve, fresh.
  rewrite (ServeHTTP_invoked _ _ _ _ _ Hinv).
  rewrite (ServeHTTP_respond_value h responses out opts _ ltac:(lia) Hc).
  cbv zeta.
  assert (∀ Hv : valid_code (StatusCode (apply_opts opts
                   {| hd := ∅; StatusCode := 200; cookies := [] |})),
            writeJSON codec h StatusOK (OfValue out) opts
              {| rw := NewRecorder; log := [] ++ prologue codec h r |}
            = _) as Hrun
    by exact (writeJSON_encoded h StatusOK (OfValue out) opts doc NewRecorder
                ([] ++ prologue codec h r) Henc eq_refl).
  split_and!.
  - intros Hv. rewrite (Hrun Hv). simpl. split_and!; try done.
    + rewrite Header_Get_add_cookies; [apply Header_Get_Set|].
      vm_compute. discriminate.
    + by rewrite <-!app_assoc.
  - intros before o -> Ho.
    assert (StatusCode (apply_opts (before ++ [o])
              {| hd := ∅; StatusCode := 200; cookies := [] |}) = 201) as H201.
    { unfold apply_opts. rewrite foldl_snoc. apply Ho. }
    assert (valid_code (StatusCode (apply_opts (before ++ [o])
              {| hd := ∅; StatusCode := 200; cookies := [] |}))) as Hv.
    { rewrite H201. unfold valid_code. lia. }
    rewrite (Hrun Hv). simpl. split_and!; done.
  - intros Hv.
    rewrite (writeJSON_invalid_code h StatusOK (OfValue out) opts doc NewRecorder
               ([] ++ prologue codec h r) Henc eq_refl Hv).
    simpl. split_and!; try done. by rewrite <-!app_assoc.
Qed.

(** C8, as amended.  When the wrapped function has been called and has
    returned, and the handler declares neither a payload-role nor an
    error-role return, the handler calls [WriteHeader(200)] and nothing
    else: no header is set, no callback is applied, nothing is encoded
    or written. *)
Theorem bare_response h r responses :
  invocation codec h r = Some responses →
  outN h < 0 → errN h < 0 →
  serve codec h r
  = (Returned (),
     {| rw := {| handlerHeader := ∅; wroteHeader := true; status := 200;
                 sentHeader := ∅; written := EmptyString |};
        log := prologue codec h r ++ [EvWriteHeader 200] |}).
Proof.
  intros Hinv Hout Herr. unfold serve, fresh.
  rewrite (ServeHTTP_invoked _ _ _ _ _ Hinv).
  by rewrite (ServeHTTP_respond_bare h responses NewRecorder _ Hout Herr eq_refl).
Qed.

(** *** The calls of the response sink *)

Lemma count_app (p : Event Data → bool) l1 l2 :
  count p (l1 ++ l2) = (count p l1 + count p l2)%nat.
Proof. unfold count. by rewrite filter_app, length_app. Qed.

Lemma count_none (p : Event Data → bool) l :
  Forall (λ e, p e = false) l → count p l = 0%nat.
Proof.
  unfold count. induction 1 as [|e l He _ IH]; [done|].
  rewrite filter_cons. destruct (decide (p e = true)); [congruence|done].
Qed.

Lemma before_WriteHeader_app pre code post :
  quiet pre → before_WriteHeader (pre ++ EvWriteHeader code :: post) = pre.
Proof.
  induction 1 as [|e l [He _] _ IH]; simpl; [done|]. by rewrite He, IH.
Qed.

Lemma after_WriteHeader_app pre code post :
  quiet pre → after_WriteHeader (pre ++ EvWriteHeader code :: post) = post.
Proof.
  induction 1 as [|e l [He _] _ IH]; simpl; [done|]. by rewrite He.
Qed.

Lemma sink_calls_shape pre code post :
  quiet pre → calm post →
  sink_calls (count is_Write post) (pre ++ EvWriteHeader code :: post) = true.
Proof.
  intros Hpre Hpost. unfold sink_calls.
  rewrite before_WriteHeader_app, after_WriteHeader_app by done.
  rewrite !count_app.
  assert (count is_WriteHeader pre = 0%nat) as ->.
  { apply count_none. eapply Forall_impl; [exact Hpre|]. by intros ? []. }
  assert (count is_Write pre = 0%nat) as ->.
  { apply count_none. eapply Forall_impl; [exact Hpre|]. by intros ? []. }
  assert (count touches_header post = 0%nat) as ->.
  { apply count_none. eapply Forall_impl; [exact Hpost|]. by intros ? []. }
  change (EvWriteHeader code :: post) with ([EvWriteHeader code] ++ post).
  rewrite !count_app.
  assert (count is_WriteHeader post = 0%nat) as ->.
  { apply count_none. eapply Forall_impl; [exact Hpost|]. by intros ? []. }
  by rewrite !bool_decide_eq_true_2.
Qed.

Lemma sink_calls_log l pre code post n :
  l = pre ++ EvWriteHeader code :: post →
  quiet pre → calm post → count is_Write post = n →
  sink_calls n l = true.
Proof. intros -> Hpre Hpost <-. by apply sink_calls_shape. Qed.

Lemma quiet_prologue h r : quiet (prologue codec h r).
Proof.
  unfold quiet, prologue. destruct (call_args codec h r); [|done].
  destruct (takesPayload h); repeat constructor.
Qed.

Lemma quiet_callbacks i n : quiet (Data:=Data) (map EvCallback (seq i n)).
Proof. unfold quiet. apply Forall_map, Forall_forall. done. Qed.

Lemma quiet_cookie_events cs : quiet (Data:=Data) (cookie_events cs).
Proof.
  unfold quiet, cookie_events. induction cs as [|c cs IH]; simpl; [done|].
  destruct (decide (Cookie_String c ≠ EmptyString)); simpl; [|done].
  by constructor.
Qed.

(** A request that is answered without the function being called is a
    request whose body did not decode. *)
Lemma ServeHTTP_not_invoked h r s :
  invocation codec h r = None →
  (ServeHTTP codec h r s).1 = Returned () →
  takesPayload h = true ∧
  ∃ t err, payloadType h = Some t ∧ json_Decode codec t (Body r) = inr err.
Proof.
  intros Hinv Hret. destruct s as [w l].
  destruct (call_args codec h r) as [args|] eqn:Hargs.
  - destruct (ServeHTTP_call_panics h r args w l Hargs Hinv) as [msg Hrun].
    by rewrite Hrun in Hret.
  - destruct (ServeHTTP_no_args h r w l Hargs) as [Htp [[_ Hrun]|Hdec]]; [|done].
    by rewrite Hrun in Hret.
Qed.

(** C4, as amended.  For a request that the handler serves to the end
    and on which the value to write encodes (to a document that is not
    empty): [WriteHeader] is called exactly once, no header is changed
    and no callback runs after it, and [Write] is called exactly once,
    after [WriteHeader]; except that [Write] is not called at all when
    the function has been called and the handler declares neither a
    payload-role nor an error-role return. *)
Theorem sink_calls_served h r :
  (serve codec h r).1 = Returned () →
  (∀ responses out opts,
     invocation codec h r = Some responses →
     ¬ (outN h < 0 ∧ errN h < 0) →
     collect h responses = Some (out, None, opts) →
     ∃ doc, json_Marshal codec out = Some doc ∧ doc ≠ EmptyString) →
  sink_calls
    (if decide (is_Some (invocation codec h r) ∧ outN h < 0 ∧ errN h < 0)
     then 0 else 1)
    (log (serve codec h r).2) = true.
Proof.
  unfold serve, fresh. intros Hret Henc.
  destruct (invocation codec h r) as [responses|] eqn:Hinv.
  - rewrite (ServeHTTP_invoked _ _ _ _ _ Hinv) in *.
    destruct (decide (outN h < 0 ∧ errN h < 0)) as [[Hout Herr]|Hdecl].
    + rewrite decide_True by (split; [by eexists|done]).
      rewrite (ServeHTTP_respond_bare h responses NewRecorder _ Hout Herr eq_refl).
      simpl.
      apply (sink_calls_log _ (prologue codec h r) StatusOK []);
        [done|apply quiet_prologue|by constructor|done].
    + rewrite decide_False by tauto.
      unfold ServeHTTP_respond in *.
      destruct (decide (outN h < 0 ∧ errN h < 0)) as [|_]; [done|].
      destruct (collect h responses) as [[[out [e|]] opts]|] eqn:Hc; [| |done].
      * destruct (match errors_As e with
                  | Some (jcode, jmessage) => (jmessage, jcode)
                  | None => (err_Error e, StatusInternalServerError)
                  end) as [msg code] eqn:Htr.
        destruct (decide (valid_code code)) as [Hv|Hv].
        2:{ by rewrite (handleError_invalid_code h e NewRecorder _ msg code
                          eq_refl Htr Hv) in Hret. }
        rewrite (handleError_run h e NewRecorder _ msg code eq_refl Htr Hv). simpl.
        set (doc := errResp_document _ _).
        apply (sink_calls_log _
                 (prologue codec h r
                    ++ [EvHeaderSet "content-type" "application/json; charset=utf-8"])
                 code [EvWrite doc]).
        -- by rewrite <-app_assoc.
        -- apply Forall_app. split; [apply quiet_prologue|by repeat constructor].
        -- unfold calm. by repeat constructor.
        -- done.
      * destruct (Henc responses out opts eq_refl Hdecl Hc) as (doc & Hdoc & Hne).
        destruct (decide (valid_code (StatusCode (apply_opts opts
                   {| hd := ∅; StatusCode := StatusOK; cookies := [] |})))) as [Hv|Hv].
        2:{ by rewrite (writeJSON_invalid_code h StatusOK (OfValue out) opts doc
                          NewRecorder ([] ++ prologue codec h r) Hdoc eq_refl Hv)
              in Hret. }
        rewrite (writeJSON_encoded h StatusOK (OfValue out) opts doc NewRecorder
                   ([] ++ prologue codec h r) Hdoc eq_refl Hv).
        simpl. rewrite decide_False by done.
        set (carrier := apply_opts opts _).
        apply (sink_calls_log _
                 (prologue codec h r ++ map EvCallback (seq 0 (length opts))
                    ++ [EvHeaderSet "content-type" "application/json; charset=utf-8"]
                    ++ cookie_events (cookies carrier))
                 (StatusCode carrier) [EvWrite doc]).
        -- by rewrite <-!app_assoc.
        -- unfold quiet. repeat (apply Forall_app; split).
           ++ apply quiet_prologue.
           ++ apply quiet_callbacks.
           ++ by repeat constructor.
           ++ apply quiet_cookie_events.
        -- unfold calm. by repeat constructor.
        -- done.
  - rewrite decide_False by (intros [[? [=]] _]).
    destruct (ServeHTTP_not_invoked _ _ _ Hinv Hret) as (Htp & t & err & Ht & Hdec).
    rewrite (ServeHTTP_decode_error h r t err NewRecorder [] Htp Ht Hdec eq_refl).
    simpl. set (doc := errResp_document _ _).
    apply (sink_calls_log _
             [EvHeaderSet "content-type" "application/json; charset=utf-8"]
             StatusBadRequest [EvWrite doc; EvBodyClose]);
      [done| | |done]; unfold quiet, calm; by repeat constructor.
Qed.

(** C10.  [getReturnType] never answers [returnInvalid]; a type that
    neither implements [error] nor is a slice of functions convertible
    to [ResponseFunc] is classified as the payload; so the loop of
    [parseReturns] never fails, and a function returning one value of
    such a type is accepted by [NewHandler] with that value as payload.
    If a value it returns does not encode, this shows when the request
    is served: the response is the fixed 500. *)
Theorem payload_is_default :
  (∀ t, getReturnType t ≠ returnInvalid) ∧
  (∀ t, Implements_error t = false → ¬ is_opts_slice t →
        getReturnType t = returnPayload) ∧
  (∀ h outs i, (parseReturns_loop h outs i).2 = None) ∧
  (∀ g ctx ins ret c ms,
     TypeOf g = TFunc (ctx :: ins) [ret] c ms →
     Implements_Context ctx = true →
     Implements_error ret = false → ¬ is_opts_slice ret →
     ∃ h, NewHandler (Some g) = Returned h ∧ outN h = 0 ∧
       ∀ r responses v,
         invocation codec h r = Some responses →
         responses !! 0%nat = Some v →
         json_Marshal codec v = None →
         status (rw (serve codec h r).2) = 500 ∧
         written (rw (serve codec h r).2)
           = "Internal error: Encoding response failed" +:+ nl).
Proof.
  split_and!.
  - apply getReturnType_not_invalid.
  - apply getReturnType_payload.
  - apply parseReturns_loop_ok.
  - intros g ctx ins ret c ms Ht Hctx Herr Hopts.
    destruct (NewHandler_any_payload g ctx ins ret c ms Ht Hctx Herr Hopts)
      as (h & Hnew & _ & Hout & HerrN & HoptsN).
    exists h. split_and!; [done|done|].
    intros r responses v Hinv Hv Henc.
    assert (collect h responses = Some (v, None, [])) as Hc.
    { unfold collect, index. rewrite Hout, HerrN, HoptsN.
      repeat (case_decide; try lia).
      change (Z.to_nat 0) with 0%nat. by rewrite Hv. }
    unfold serve, fresh.
    rewrite (ServeHTTP_invoked _ _ _ _ _ Hinv).
    rewrite (ServeHTTP_respond_value h responses v [] _ ltac:(lia) Hc).
    destruct (writeJSON_encode_error h StatusOK (OfValue v) [] NewRecorder
                ([] ++ prologue codec h r) Henc eq_refl) as [hdr ->].
    done.
Qed.

End Dispatcher.

(** ** Further properties of the errors *)

Section Errors.

Lemma Sprintf_w_literal (c : ascii) rest a :
  c ≠ "%"%char → Sprintf_w (String c rest) a = String c (Sprintf_w rest a).
Proof.
  intros Hc. destruct c as [[] [] [] [] [] [] [] []]; try reflexivity.
  by destruct Hc.
Qed.

Lemma count_w_literal (c : ascii) rest :
  c ≠ "%"%char → count_w (String c rest) = count_w rest.
Proof.
  intros Hc. destruct c as [[] [] [] [] [] [] [] []]; try reflexivity.
  by destruct Hc.
Qed.

Lemma no_verb_cons (c : ascii) rest :
  no_verb (String c rest) = true → c ≠ "%"%char ∧ no_verb rest = true.
Proof.
  simpl. intros [Hc Hrest]%andb_true_iff. split; [|done].
  apply negb_true_iff, bool_decide_eq_false in Hc. done.
Qed.

(** X17.  With a message that holds no verb and without operands,
    [Errorf] builds the same error as [Error]: the message is the format
    itself and there is no cause. *)
Theorem Errorf_plain_message code format :
  no_verb format = true →
  Errorf code format [] = Error code format.
Proof.
  intros Hno. unfold Errorf, Error, fmt_Errorf. simpl.
  assert (wrapped_w format [] = None) as -> by (unfold wrapped_w; by case_decide).
  assert (Sprintf_w format [] = format) as ->; [|done].
  induction format as [|c rest IH]; [done|].
  apply no_verb_cons in Hno as [Hc Hrest].
  rewrite Sprintf_w_literal by done. by rewrite (IH Hrest).
Qed.

(** X18.  [Errorf] with a format that ends in [%w] after verb-free text
    wraps its operand: the message is the text followed by the operand's
    own string, the operand is what the error unwraps to, and the code
    is the one given, whatever the operand is. *)
Theorem Errorf_wraps code prefix (err : error) :
  no_verb prefix = true →
  Errorf code (prefix +:+ "%w") [err]
  = HandlerErr code (prefix +:+ err_Error err) (Some err) ∧
  Unwrap (Errorf code (prefix +:+ "%w") [err]) = Some err ∧
  errors_As (Errorf code (prefix +:+ "%w") [err])
  = Some (code, prefix +:+ err_Error err).
Proof.
  intros Hno.
  assert (Sprintf_w (prefix +:+ "%w") [err] = prefix +:+ err_Error err ∧
          count_w (prefix +:+ "%w") = 1%nat) as [Hs Hn].
  { induction prefix as [|c rest IH].
    - split; [|done]. change (err_Error err +:+ EmptyString = err_Error err).
      apply append_empty.
    - apply no_verb_cons in Hno as [Hc Hrest].
      change (String c rest +:+ "%w") with (String c (rest +:+ "%w")).
      rewrite Sprintf_w_literal, count_w_literal by done.
      destruct (IH Hrest) as [-> ->]. done. }
  assert (wrapped_w (prefix +:+ "%w") [err] = Some err) as Hw.
  { unfold wrapped_w. by rewrite decide_True. }
  unfold Errorf, fmt_Errorf. simpl. rewrite Hs, Hw. done.
Qed.

End Errors.

(** ** Further properties of the validator *)

Section Construction.

Context {Data : Type}.
Implicit Types (h : handler Data) (g : GoValue Data) (t : rtype).

(** The loop of [parseReturns] leaves in each position field the last
    position of its role. *)
Lemma parseReturns_loop_positions h outs i :
  errN (parseReturns_loop h outs i).1 = last_role returnErr outs i (errN h) ∧
  optsN (parseReturns_loop h outs i).1 = last_role returnOpts outs i (optsN h) ∧
  outN (parseReturns_loop h outs i).1 = last_role returnPayload outs i (outN h).
Proof.
  revert h i. induction outs as [|t outs IH]; intros h i; simpl; [done|].
  pose proof (getReturnType_not_invalid t).
  destruct (getReturnType t) eqn:Hr; try done;
    match goal with |- context [parseReturns_loop ?h1 _ ?j] =>
      destruct (IH h1 j) as (-> & -> & ->) end;
    simpl; repeat case_decide; done.
Qed.

Lemma last_role_spec role outs i d :
  (last_role role outs i d = d ∧ Forall (λ t, getReturnType t ≠ role) outs) ∨
  (∃ (k : nat) t, last_role role outs i d = i + Z.of_nat k ∧
     outs !! k = Some t ∧ getReturnType t = role ∧
     ∀ (j : nat) t', (k < j)%nat → outs !! j = Some t' → getReturnType t' ≠ role).
Proof.
  revert i d. induction outs as [|t outs IH]; intros i d; simpl; [by left|].
  destruct (IH (i + 1) (if decide (getReturnType t = role) then i else d))
    as [[Heq Hall]|(k & t1 & Heq & Hk & Hr & Hlater)].
  - destruct (decide (getReturnType t = role)) as [Ht|Ht].
    + right. exists 0%nat, t. split_and!; [lia|done|done|].
      intros [|j] t' Hj Hl; [lia|]. simpl in Hl.
      rewrite Forall_lookup in Hall. by eapply Hall.
    + left. split; [done|]. by constructor.
  - right. exists (S k), t1. split_and!; [lia|done|done|].
    intros [|j] t' Hj Hl; [lia|]. simpl in Hl. eapply Hlater; [|done]. lia.
Qed.

Lemma last_role_position role outs :
  position_of role (last_role role outs 0 (-1)) outs.
Proof.
  destruct (last_role_spec role outs 0 (-1))
    as [[Heq Hall]|(k & t & Heq & Hk & Hr & Hlater)].
  - left. done.
  - right. exists k, t. split_and!; [lia|done..].
Qed.

(** What [parseReturns] has established when it returns nil. *)
Lemma parseReturns_Returned h1 t h :
  parseReturns h1 t = (h, None) →
  let n := Z.of_nat (length (Outs t)) in
  n <= 3 ∧
  errN h = last_role returnErr (Outs t) 0 (-1) ∧
  optsN h = last_role returnOpts (Outs t) 0 (-1) ∧
  outN h = last_role returnPayload (Outs t) 0 (-1) ∧
  ¬ (n > 1 ∧ errN h >= 0 ∧ errN h < n - 1) ∧
  ¬ (n > 0 ∧ outN h >= 0 ∧ outN h ≠ 0).
Proof.
  unfold parseReturns, NumOut.
  set (h0 := set_positions (-1) (-1) (-1) h1).
  destruct (decide (Z.of_nat (length (Outs t)) = 0)) as [Hn|Hn].
  { intros [= <-]. destruct (Outs t); [|done]. simpl. split_and!; try done; lia. }
  destruct (decide (Z.of_nat (length (Outs t)) > 3)); [done|].
  pose proof (parseReturns_loop_ok h0 (Outs t) 0) as Hok.
  pose proof (parseReturns_loop_positions h0 (Outs t) 0) as (He & Ho & Hp).
  destruct (parseReturns_loop h0 (Outs t) 0) as [h' e]. simpl in *. subst e.
  destruct (decide (_ ∧ _ ∧ _)) as [|Hfirst]; [done|].
  destruct (decide (_ ∧ _ ∧ _)) as [|Hsecond]; [done|].
  intros [= <-]. split_and!; first [done|lia].
Qed.

Lemma parseReturns_accepts h1 t :
  (length (Outs t) <= 3)%nat →
  ¬ error_not_last (Outs t) → ¬ payload_not_first (Outs t) →
  ∃ h, parseReturns h1 t = (h, None).
Proof.
  intros Hlen Herr Hpay. unfold parseReturns, NumOut.
  set (h0 := set_positions (-1) (-1) (-1) h1).
  destruct (decide (Z.of_nat (length (Outs t)) = 0)); [by eexists|].
  destruct (decide (Z.of_nat (length (Outs t)) > 3)); [lia|].
  pose proof (parseReturns_loop_ok h0 (Outs t) 0) as Hok.
  pose proof (parseReturns_loop_positions h0 (Outs t) 0) as (He & _ & Hp).
  destruct (parseReturns_loop h0 (Outs t) 0) as [h' e]. simpl in *. subst e.
  destruct (decide (_ ∧ _ ∧ _)) as [(Hn & Hge & Hlt)|_].
  { exfalso. apply Herr. rewrite He in Hge, Hlt.
    destruct (last_role_spec returnErr (Outs t) 0 (-1))
      as [[Heq _]|(k & tk & Heq & Hk & Hr & Hlater)]; [lia|].
    split.
    - exists tk. split; [by eapply list_elem_of_lookup_2|done].
    - destruct (last (Outs t)) as [tl|] eqn:Hlast.
      + exists tl. split; [done|]. rewrite last_lookup in Hlast.
        eapply Hlater; [|exact Hlast]. lia.
      + apply last_None in Hlast. rewrite Hlast in Hk. done. }
  destruct (decide (_ ∧ _ ∧ _)) as [(Hn & Hge & Hne)|_]; [|by eexists].
  exfalso. apply Hpay. rewrite Hp in Hge, Hne.
  destruct (last_role_spec returnPayload (Outs t) 0 (-1))
    as [[Heq _]|(k & tk & Heq & Hk & Hr & _)]; [lia|].
  exists k, tk. split_and!; [done| |done]. lia.
Qed.

(** X1.  A function without parameters, or whose first parameter does
    not implement [context.Context], is refused, each with its own
    message. *)
Theorem first_parameter_must_be_context g :
  Kind_of (TypeOf g) = Func →
  (Ins (TypeOf g) = [] →
   NewHandler (Some g)
   = Panicked "handler function must take a context.Context as its first argument") ∧
  (∀ arg0 rest, Ins (TypeOf g) = arg0 :: rest → Implements_Context arg0 = false →
   NewHandler (Some g)
   = Panicked "first argument of handler does not implement context.Context").
Proof.
  intros Hk. unfold NewHandler, parseHandler. simpl.
  destruct (decide (Kind_of (TypeOf g) ≠ Func)); [done|].
  unfold parseArgs. split.
  - by intros ->.
  - intros arg0 rest -> Hctx. unfold validateContext. by rewrite Hctx.
Qed.

(** [nil] and every value that is not a function are refused before
    anything else is looked at. *)
Lemma not_a_function_rejected :
  NewHandler (None : option (GoValue Data)) = Panicked "nil handlers are invalid" ∧
  ∀ g, Kind_of (TypeOf g) ≠ Func →
       NewHandler (Some g) = Panicked "handler must be a function".
Proof.
  split; [done|]. intros g Hk. unfold NewHandler, parseHandler. simpl.
  by destruct (decide (Kind_of (TypeOf g) ≠ Func)).
Qed.

(** X2.  A function with more than three returns is refused, whatever
    the returns are; when its parameters are in order the message is
    "too many return values". *)
Theorem too_many_returns_rejected g :
  (3 < length (Outs (TypeOf g)))%nat →
  (∃ msg, NewHandler (Some g) = Panicked msg) ∧
  (∀ ctx rest, Ins (TypeOf g) = ctx :: rest → Implements_Context ctx = true →
     NewHandler (Some g) = Panicked "too many return values").
Proof.
  intros Hlen.
  assert (∀ h1, (parseReturns h1 (TypeOf g)).2 = Some "too many return values") as Hrets.
  { intros h1. unfold parseReturns, NumOut.
    destruct (decide (Z.of_nat (length (Outs (TypeOf g))) = 0)); [lia|].
    destruct (decide (Z.of_nat (length (Outs (TypeOf g))) > 3)); [done|lia]. }
  split.
  - unfold NewHandler, parseHandler. simpl.
    destruct (decide (Kind_of (TypeOf g) ≠ Func)); [by eexists|].
    destruct (parseArgs _ _) as [h1 [e|]]; [by eexists|].
    specialize (Hrets h1). destruct (parseReturns h1 _) as [h2 e].
    simpl in Hrets. subst e. by eexists.
  - intros ctx rest Hins Hctx. unfold NewHandler, parseHandler. simpl.
    destruct (decide (Kind_of (TypeOf g) ≠ Func)) as [Hk|_].
    { destruct (TypeOf g); simpl in *; try lia. done. }
    unfold parseArgs, validateContext. rewrite Hins, Hctx. simpl.
    destruct (parsePayload _ _) as [h1 [e|]] eqn:Hp.
    { unfold parsePayload in Hp. by destruct (decide _). }
    specialize (Hrets h1). destruct (parseReturns h1 _) as [h2 e].
    simpl in Hrets. by subst e.
Qed.

(** X3.  [NewHandler] returns a handler exactly for the functions whose
    first parameter implements [context.Context], that have at most
    three returns, in which no error-role return is followed by a last
    return of another role, and in which no payload-role return stands
    after the first position.  (The number of parameters after the
    context is not part of the condition.) *)
Theorem NewHandler_accepts_iff g :
  (∃ h, NewHandler (Some g) = Returned h) ↔
  Kind_of (TypeOf g) = Func ∧
  (∃ ctx rest, Ins (TypeOf g) = ctx :: rest ∧ Implements_Context ctx = true) ∧
  (length (Outs (TypeOf g)) <= 3)%nat ∧
  ¬ error_not_last (Outs (TypeOf g)) ∧
  ¬ payload_not_first (Outs (TypeOf g)).
Proof.
  split.
  - intros [h (g' & h1 & [= <-] & Hk & Hargs & Hrets)%NewHandler_Returned].
    split_and!; [done| | | |].
    + unfold parseArgs in Hargs.
      destruct (Ins (TypeOf g)) as [|ctx rest]; [done|].
      exists ctx, rest. split; [done|].
      unfold validateContext in Hargs. by destruct (Implements_Context ctx).
    + destruct (parseReturns_Returned _ _ _ Hrets) as (Hn & _). lia.
    + intros Hshape.
      destruct (parseReturns_rejects h1 (TypeOf g) (or_introl Hshape)) as [e He].
      by rewrite Hrets in He.
    + intros Hshape.
      destruct (parseReturns_rejects h1 (TypeOf g) (or_intror Hshape)) as [e He].
      by rewrite Hrets in He.
  - intros (Hk & (ctx & rest & Hins & Hctx) & Hlen & Herr & Hpay).
    unfold NewHandler, parseHandler. simpl.
    destruct (decide (Kind_of (TypeOf g) ≠ Func)); [done|].
    unfold parseArgs, validateContext. rewrite Hins, Hctx. simpl.
    destruct (parsePayload _ _) as [h1 [e|]] eqn:Hp.
    { unfold parsePayload in Hp. by destruct (decide _). }
    destruct (parseReturns_accepts h1 (TypeOf g) Hlen Herr Hpay) as [h ->].
    by exists h.
Qed.

Lemma constructed_positions g h :
  NewHandler (Some g) = Returned h →
  let outs := Outs (TypeOf g) in
  position_of returnErr (errN h) outs ∧
  position_of returnOpts (optsN h) outs ∧
  position_of returnPayload (outN h) outs ∧
  (length outs <= 3)%nat ∧
  (outN h = -1 ∨ outN h = 0) ∧
  (errN h = -1 ∨ errN h = Z.of_nat (length outs) - 1).
Proof.
  intros (g' & h1 & [= <-] & Hk & Hargs & Hrets)%NewHandler_Returned outs.
  destruct (parseReturns_Returned _ _ _ Hrets) as (Hn & He & Ho & Hp & Hc1 & Hc2).
  fold outs in Hn, He, Ho, Hp, Hc1, Hc2.
  pose proof (last_role_position returnErr outs) as Pe.
  pose proof (last_role_position returnOpts outs) as Po.
  pose proof (last_role_position returnPayload outs) as Pp.
  rewrite <-He in Pe. rewrite <-Ho in Po. rewrite <-Hp in Pp.
  split_and!; [done|done|done|lia| |].
  - destruct Pp as [[-> _]|(k & t & Hk' & Hl & _)]; [by left|].
    apply lookup_lt_Some in Hl. right.
    destruct (decide (outN h = 0)); [done|]. exfalso. apply Hc2. lia.
  - destruct Pe as [[-> _]|(k & t & Hk' & Hl & _)]; [by left|].
    apply lookup_lt_Some in Hl. right.
    destruct (decide (errN h = Z.of_nat (length outs) - 1)); [done|].
    exfalso. apply Hc1. lia.
Qed.

Lemma parseReturns_frame_fn h t :
  fn (parseReturns h t).1 = fn h ∧ ht (parseReturns h t).1 = ht h.
Proof.
  unfold parseReturns.
  set (h0 := set_positions (-1) (-1) (-1) h).
  destruct (decide (NumOut t = 0)); [done|].
  destruct (decide (NumOut t > 3)); [done|].
  pose proof (parseReturns_loop_frame h0 (Outs t) 0) as (Hfn & _ & Hht & _).
  pose proof (parseReturns_loop_ok h0 (Outs t) 0) as Hok.
  destruct (parseReturns_loop h0 (Outs t) 0) as [h' e]. simpl in *. subst e.
  repeat case_decide; done.
Qed.

Lemma constructed_payload g h :
  NewHandler (Some g) = Returned h →
  fn h = Some g ∧ hv h = Some g ∧ ht h = Some (TypeOf g) ∧
  (takesPayload h = true ↔ length (Ins (TypeOf g)) = 2%nat) ∧
  payloadType h = (if takesPayload h then Ins (TypeOf g) !! 1%nat else None).
Proof.
  intros (g' & h1 & [= <-] & Hk & Hargs & Hrets)%NewHandler_Returned.
  pose proof (parseReturns_frame h1 (TypeOf g)) as (Hhv & Hpt & Htp).
  pose proof (parseReturns_frame_fn h1 (TypeOf g)) as (Hfn & Hht).
  rewrite Hrets in *. simpl in *.
  rewrite Hhv, Hpt, Htp, Hfn, Hht. clear Hhv Hpt Htp Hfn Hht Hrets.
  unfold parseArgs in Hargs.
  destruct (Ins (TypeOf g)) as [|ctx ins] eqn:Hins; [done|].
  destruct (validateContext ctx); [done|].
  unfold parsePayload, NumIn, In_, index in Hargs. rewrite Hins in Hargs.
  destruct (decide _) as [Hn|Hn]; simpl in Hargs; injection Hargs as <-; simpl.
  - split_and!; try done. split; [done|]. intros [=]. simpl in Hn. lia.
  - apply dec_stable in Hn. simpl in Hn.
    split_and!; try done. split; [intros _|done]. simpl. lia.
Qed.

(** X4.  In a handler that [NewHandler] returns, each of [errN],
    [optsN], [outN] is the position of the last return of its role, and
    -1 when no return has the role; there are at most three returns, the
    payload, when there is one, is the first return, and the error, when
    there is one, is the last. *)
Theorem descriptor_positions g h :
  NewHandler (Some g) = Returned h →
  let outs := Outs (TypeOf g) in
  position_of returnErr (errN h) outs ∧
  position_of returnOpts (optsN h) outs ∧
  position_of returnPayload (outN h) outs ∧
  (length outs <= 3)%nat ∧
  (outN h = -1 ∨ outN h = 0) ∧
  (errN h = -1 ∨ errN h = Z.of_nat (length outs) - 1).
Proof. apply constructed_positions. Qed.

(** X5.  A handler that [NewHandler] returns holds the function it was
    made from and its type; it takes a payload exactly when the function
    has two parameters, and the payload type is then the type of the
    second one. *)
Theorem payload_parameter g h :
  NewHandler (Some g) = Returned h →
  fn h = Some g ∧ hv h = Some g ∧ ht h = Some (TypeOf g) ∧
  (takesPayload h = true ↔ length (Ins (TypeOf g)) = 2%nat) ∧
  payloadType h = (if takesPayload h then Ins (TypeOf g) !! 1%nat else None).
Proof. apply constructed_payload. Qed.

(** X6.  The signatures that the comment of [NewHandler] lists are
    accepted: a context, at most one parameter more, and as returns
    nothing, an error, a result and an error, or a result, callbacks and
    an error.  The handler takes a payload exactly when there is a
    second parameter, and the roles are at the positions of the list. *)
Theorem documented_signatures_accepted g ctx ins c ms outs tp to te :
  TypeOf g = TFunc (ctx :: ins) outs c ms →
  Implements_Context ctx = true →
  (length ins <= 1)%nat →
  getReturnType tp = returnPayload →
  getReturnType to = returnOpts →
  getReturnType te = returnErr →
  outs ∈ [[]; [te]; [tp; te]; [tp; to; te]] →
  ∃ h, NewHandler (Some g) = Returned h ∧
       takesPayload h = bool_decide (length ins = 1%nat) ∧
       (outN h, optsN h, errN h)
       = match outs with
         | [] => (-1, -1, -1)
         | [_] => (-1, -1, 0)
         | [_; _] => (0, -1, 1)
         | _ => (0, 1, 2)
         end.
Proof.
  intros Ht Hctx Hins Hp Ho He Houts.
  unfold NewHandler, parseHandler. simpl. rewrite Ht. simpl.
  unfold parseArgs, validateContext. simpl. rewrite Hctx. simpl.
  unfold parsePayload, parseReturns, NumIn, NumOut. simpl.
  repeat (apply elem_of_cons in Houts as [->|Houts]);
    [| | | |by apply elem_of_nil in Houts];
    destruct ins as [|p [|? ?]]; simpl in Hins; try lia; simpl;
    rewrite ?Hp, ?Ho, ?He; simpl;
    repeat (case_decide; try lia); simpl;
    eexists; split_and!; reflexivity.
Qed.

End Construction.

(** ** Further properties of the dispatcher *)

Section Serving.

Context {Data : Type} (codec : Codec Data).
Implicit Types (h : handler Data) (g : GoValue Data) (r : Request)
  (w : ResponseWriter) (l : list (Event Data)) (s : World Data).

Lemma calls_app l1 l2 : calls (l1 ++ l2) = calls l1 ++ calls l2.
Proof. unfold calls. apply omap_app. Qed.

Lemma calls_sink l : Forall (λ e, is_sink e = true) l → calls l = [].
Proof.
  unfold calls. induction 1 as [|e l He _ IH]; [done|].
  destruct e; try done; simpl; apply IH.
Qed.

Lemma calls_prologue h r args :
  call_args codec h r = Some args → calls (prologue codec h r) = [args].
Proof. unfold prologue. intros ->. by destruct (takesPayload h). Qed.

Lemma call_args_shape h r args :
  call_args codec h r = Some args →
  ∃ rest, args = VCtx r :: rest ∧
          length rest = if takesPayload h then 1%nat else 0%nat.
Proof.
  unfold call_args. destruct (takesPayload h).
  - destruct (payloadType h) as [t|]; [|done]. simpl.
    destruct (json_Decode codec t (Body r)) as [pl|]; [|done].
    intros [= <-]. by eexists.
  - intros [= <-]. by eexists.
Qed.

Lemma invocation_call_args h r responses :
  invocation codec h r = Some responses → is_Some (call_args codec h r).
Proof. unfold invocation. by destruct (call_args codec h r). Qed.

(** X7.  The wrapped function is entered at most once per request:
    exactly once when its arguments can be built (the handler takes no
    payload, or the body decodes) and [reflect] accepts the call, not at
    all otherwise.  Its first argument is a context from which [Request]
    returns the request being served, followed by the decoded payload
    when the handler takes one. *)
Theorem function_called_once h r :
  let l := log (serve codec h r).2 in
  calls l = match invocation codec h r with
            | Some _ => option_list (call_args codec h r)
            | None => []
            end ∧
  (length (calls l) <= 1)%nat ∧
  ∀ args, args ∈ calls l →
    ∃ ctx rest, args = ctx :: rest ∧ Request_ ctx = Returned r ∧
                length rest = if takesPayload h then 1%nat else 0%nat.
Proof.
  simpl. pose proof (serve_log codec h r) as Hlog. simpl in Hlog.
  assert (calls (log (serve codec h r).2)
          = match invocation codec h r with
            | Some _ => option_list (call_args codec h r)
            | None => []
            end) as Hcalls.
  { destruct (call_args codec h r) as [args|] eqn:Hargs.
    - destruct (invocation codec h r) as [responses|] eqn:Hinv.
      + destruct Hlog as (l' & -> & Hsink).
        rewrite calls_app, (calls_prologue _ _ _ Hargs), (calls_sink _ Hsink). done.
      + rewrite Hlog. by destruct (takesPayload h).
    - destruct (invocation codec h r) as [responses|] eqn:Hinv.
      { apply invocation_call_args in Hinv as [? Hsome]. congruence. }
      destruct Hlog as [->|(_ & doc & code & ->)]; done. }
  rewrite Hcalls. clear Hlog Hcalls.
  destruct (invocation codec h r) as [responses|];
    [|split_and!; [done|simpl; lia|by intros args ?%elem_of_nil]].
  destruct (call_args codec h r) as [args0|] eqn:Hargs;
    [|split_and!; [done|simpl; lia|by intros args ?%elem_of_nil]].
  split_and!; [done|simpl; lia|].
  intros args ->%list_elem_of_singleton.
  destruct (call_args_shape _ _ _ Hargs) as (rest & -> & Hlen).
  by exists (VCtx r), rest.
Qed.

(** X8.  A handler that [NewHandler] returns closes the request body
    exactly once per request when it takes a payload, whether the body
    decodes or not and whatever happens after, and never touches it
    when it takes none. *)
Theorem body_closed_once f h r :
  NewHandler f = Returned h →
  count is_BodyClose (log (serve codec h r).2)
  = if takesPayload h then 1%nat else 0%nat.
Proof.
  intros Hnew. destruct (NewHandler_payloadType f h Hnew) as [_ Hpt].
  pose proof (serve_log codec h r) as Hlog. simpl in Hlog.
  destruct (call_args codec h r) as [args|] eqn:Hargs.
  - destruct (invocation codec h r) as [responses|].
    + destruct Hlog as (l' & -> & Hsink).
      rewrite count_app, (count_none _ l'), Nat.add_0_r.
      * unfold prologue. rewrite Hargs. by destruct (takesPayload h).
      * eapply Forall_impl; [exact Hsink|]. by intros [].
    + rewrite Hlog. by destruct (takesPayload h).
  - destruct (ServeHTTP_no_args codec h r NewRecorder [] Hargs) as [Htp Hcase].
    rewrite Htp. destruct Hlog as [Hnil|(_ & doc & code & ->)]; [|done].
    exfalso. destruct Hcase as [[Hnone _]|(t & err & Ht & Hdec)].
    + destruct (Hpt Htp) as [t Ht]. congruence.
    + unfold serve, fresh in Hnil.
      by rewrite (ServeHTTP_decode_error codec h r t err NewRecorder [] Htp Ht Hdec
                    eq_refl) in Hnil.
Qed.


(** X11.  When the value in the callback position is not a
    [[]ResponseFunc], the type assertion of [ServeHTTP] panics: the
    request is not answered, and nothing reaches the response writer. *)
Theorem callback_assertion_panics h r responses v :
  invocation codec h r = Some responses →
  ¬ (outN h < 0 ∧ errN h < 0) →
  0 <= optsN h →
  index responses (optsN h) = Some v →
  (∀ fs, v ≠ VOpts fs) →
  (∃ msg, (serve codec h r).1 = Panicked msg) ∧
  rw (serve codec h r).2 = NewRecorder.
Proof.
  intros Hinv Hdecl Hopts Hv Hno.
  assert (collect h responses = None) as Hc.
  { unfold collect.
    destruct (if decide (outN h >= 0) then _ else _); simpl; [|done].
    destruct (if decide (errN h >= 0) then _ else _); simpl; [|done].
    rewrite decide_True by lia. rewrite Hv. simpl.
    destruct v; try done. by destruct (Hno fs). }
  unfold serve, fresh.
  rewrite (ServeHTTP_invoked codec _ _ _ _ _ Hinv).
  destruct (ServeHTTP_respond_outcome codec h responses NewRecorder
              ([] ++ prologue codec h r) eq_refl) as (_ & Hpanic & _).
  destruct (Hpanic Hdecl Hc) as [Hmsg ->]. done.
Qed.

(** X12.  When the function returns an error whose code (that of the
    first [HandlerErr] of its cause chain, or 500) lies in 100..999, the
    payload and the callbacks it returns with it are dropped: no
    callback runs, no cookie is added, and the response is the document
    of the error's message alone, with that code as status and the JSON
    content type as only header. *)
Theorem error_discards_callbacks h r responses out e opts message code :
  invocation codec h r = Some responses →
  collect h responses = Some (out, Some e, opts) →
  match find is_HandlerErr (cause_chain e) with
  | Some (HandlerErr c m _) => (m, c)
  | _ => (err_Error e, 500)
  end = (message, code) →
  100 <= code <= 999 →
  log (serve codec h r).2
  = prologue codec h r
    ++ [EvHeaderSet "content-type" "application/json; charset=utf-8";
        EvWriteHeader code;
        EvWrite ("{" +:+ String "010"%char
                   ("  " +:+ String "034"%char ("error" +:+ String "034"%char
                      (": " +:+ json_String codec message
                       +:+ String "010"%char ("}" +:+ String "010"%char EmptyString)))))] ∧
  status (rw (serve codec h r).2) = code ∧
  sentHeader (rw (serve codec h r).2)
  = Header_Set "content-type" "application/json; charset=utf-8" ∅.
Proof.
  intros Hinv Hc Hfind Hcode. unfold serve, fresh.
  rewrite (ServeHTTP_invoked codec _ _ _ _ _ Hinv).
  rewrite (ServeHTTP_respond_error codec _ _ _ _ _ _ Hc).
  assert (match errors_As e with
          | Some (jcode, jmessage) => (jmessage, jcode)
          | None => (err_Error e, StatusInternalServerError)
          end = (message, code)) as Htr.
  { rewrite errors_As_chain.
    by destruct (find is_HandlerErr (cause_chain e)) as [[|c m cause]|]. }
  by rewrite (handleError_run codec h e NewRecorder _ message code eq_refl Htr Hcode).
Qed.


Lemma lookup_add_cookies cs (hdr : Header) :
  default [] (add_cookies cs hdr !! "Set-Cookie")
  = default [] (hdr !! "Set-Cookie") ++ cookie_values cs.
Proof.
  revert hdr. unfold cookie_values.
  induction cs as [|c cs IH]; intros hdr; simpl.
  { by rewrite app_nil_r. }
  rewrite IH. rewrite filter_cons.
  destruct (decide (Cookie_String c ≠ EmptyString)); [|done].
  unfold Header_Add.
  change (CanonicalMIMEHeaderKey "Set-Cookie") with "Set-Cookie".
  rewrite lookup_insert_eq. simpl. by rewrite <-app_assoc.
Qed.

Lemma apply_opts_SetCookie cs (res : Response) :
  apply_opts (Response_SetCookie <$> cs) res
  = {| hd := hd res; StatusCode := StatusCode res; cookies := cookies res ++ cs |}.
Proof.
  unfold apply_opts. revert res. induction cs as [|c cs IH]; intros res; simpl.
  - rewrite app_nil_r. by destruct res.
  - rewrite IH. simpl. by rewrite <-app_assoc.
Qed.


(** X14.  On a success response whose status code (the one the
    callbacks leave in the carrier) lies in 100..999, the cookies that
    the callbacks have queued are added to the [Set-Cookie] header in
    the order they were queued, those that serialise to the empty string
    left out; when the callbacks are calls of [SetCookie] only, the
    header holds exactly those cookies and the status stays 200. *)
Theorem cookies_committed_in_order h r responses out opts doc :
  invocation codec h r = Some responses →
  ¬ (outN h < 0 ∧ errN h < 0) →
  collect h responses = Some (out, None, opts) →
  json_Marshal codec out = Some doc →
  100 <= StatusCode (apply_opts opts {| hd := ∅; StatusCode := 200; cookies := [] |})
      <= 999 →
  let res := serve codec h r in
  let carrier := apply_opts opts {| hd := ∅; StatusCode := 200; cookies := [] |} in
  default [] (sentHeader (rw res.2) !! "Set-Cookie")
  = default [] (hd carrier !! "Set-Cookie") ++ cookie_values (cookies carrier) ∧
  ∀ cs, opts = Response_SetCookie <$> cs →
    default [] (sentHeader (rw res.2) !! "Set-Cookie") = cookie_values cs ∧
    status (rw res.2) = 200.
Proof.
  intros Hinv Hdecl Hc Henc Hcode. unfold serve, fresh.
  rewrite (ServeHTTP_invoked codec _ _ _ _ _ Hinv).
  rewrite (ServeHTTP_respond_value codec h responses out opts _ Hdecl Hc).
  rewrite (writeJSON_encoded codec h StatusOK (OfValue out) opts doc NewRecorder
             ([] ++ prologue codec h r) Henc eq_refl Hcode).
  simpl.
  assert (∀ hdr : Header,
            Header_Set "content-type" "application/json; charset=utf-8" hdr
              !! "Set-Cookie" = hdr !! "Set-Cookie") as Hct.
  { intros hdr. unfold Header_Set. by rewrite lookup_insert_ne. }
  split.
  - by rewrite lookup_add_cookies, Hct.
  - intros cs ->. rewrite lookup_add_cookies, Hct, apply_opts_SetCookie. done.
Qed.

(** X15.  When the value to write does not encode, [writeJSON] does not
    stop after [http.Error]: the callbacks still run, the JSON content
    type is set and [WriteHeader] is called a second time, all after
    the 500 has been committed; the sink protocol is not kept. *)
Theorem encode_failure_second_WriteHeader h r responses out opts :
  invocation codec h r = Some responses →
  ¬ (outN h < 0 ∧ errN h < 0) →
  collect h responses = Some (out, None, opts) →
  json_Marshal codec out = None →
  let l := log (serve codec h r).2 in
  (∃ cs code,
     l = prologue codec h r
         ++ [EvHeaderSet "Content-Type" "text/plain; charset=utf-8";
             EvHeaderSet "X-Content-Type-Options" "nosniff";
             EvWriteHeader 500;
             EvWrite ("Internal error: Encoding response failed" +:+ nl)]
         ++ map EvCallback (seq 0 (length opts))
         ++ [EvHeaderSet "content-type" "application/json; charset=utf-8"]
         ++ cookie_events cs
         ++ [EvWriteHeader code]) ∧
  count is_WriteHeader l = 2%nat ∧
  count is_Write l = 1%nat ∧
  sink_protocol l = false.
Proof.
  intros Hinv Hdecl Hc Henc. unfold serve, fresh.
  rewrite (ServeHTTP_invoked codec _ _ _ _ _ Hinv).
  rewrite (ServeHTTP_respond_value codec h responses out opts _ Hdecl Hc).
  destruct (writeJSON_encode_error codec h StatusOK (OfValue out) opts NewRecorder
              ([] ++ prologue codec h r) Henc eq_refl) as [hdr ->].
  cbv zeta. cbn [snd fst log rw]. set (cs := cookies _). set (code := StatusCode _).
  assert (∀ p : Event Data → bool, (∀ i, p (EvCallback i) = false) →
            (∀ k v, p (EvHeaderAdd k v) = false) → p EvBodyClose = false →
            (∀ a, p (EvCall a) = false) →
            count p (prologue codec h r) = 0%nat ∧
            count p (map EvCallback (seq 0 (length opts))) = 0%nat ∧
            count p (cookie_events cs) = 0%nat) as Hzero.
  { intros p Hcb Hadd Hclose Hcall. split_and!; apply count_none.
    - unfold prologue. destruct (call_args codec h r); [|done].
      destruct (takesPayload h); repeat constructor; done.
    - apply Forall_map, Forall_forall. intros i _. apply Hcb.
    - generalize cs. intros cs0. unfold cookie_events.
      induction cs0 as [|c cs' IH]; simpl; [done|].
      destruct (decide (Cookie_String c ≠ EmptyString)); simpl; [|done].
      constructor; [apply Hadd|done]. }
  destruct (Hzero is_WriteHeader) as (Hw1 & Hw2 & Hw3); try done.
  destruct (Hzero is_Write) as (Hr1 & Hr2 & Hr3); try done.
  assert (∀ l0 : list (Event Data), [] ++ l0 = l0) as Hnil by done.
  rewrite Hnil. rewrite !count_app, Hw1, Hw2, Hw3, Hr1, Hr2, Hr3.
  split_and!.
  - by exists cs, code.
  - done.
  - done.
  - unfold sink_protocol, sink_calls. rewrite !count_app, Hw1, Hw2, Hw3. done.
Qed.

(** X16.  A handler that declares an error but no payload answers a nil
    error with the document of the nil interface: the value written is
    [nil], and when the status code the callbacks leave lies in 100..999
    it is the status of the response (200 without callbacks). *)
Theorem error_only_handler_nil h r responses out opts doc :
  invocation codec h r = Some responses →
  outN h < 0 → 0 <= errN h →
  collect h responses = Some (out, None, opts) →
  json_Marshal codec VNil = Some doc →
  100 <= StatusCode (apply_opts opts {| hd := ∅; StatusCode := 200; cookies := [] |})
      <= 999 →
  out = VNil ∧
  (serve codec h r).1 = Returned () ∧
  written (rw (serve codec h r).2) = doc ∧
  status (rw (serve codec h r).2)
  = StatusCode (apply_opts opts {| hd := ∅; StatusCode := 200; cookies := [] |}) ∧
  (opts = [] → status (rw (serve codec h r).2) = 200).
Proof.
  intros Hinv Hout Herr Hc Henc Hcode.
  assert (out = VNil) as ->.
  { unfold collect in Hc. destruct (decide (outN h >= 0)); [lia|]. simpl in Hc.
    destruct (if decide (errN h >= 0) then _ else _); simpl in Hc; [|done].
    destruct (if decide (optsN h >= 0) then _ else _); simpl in Hc; [|done].
    by injection Hc as <- _ _. }
  unfold serve, fresh.
  rewrite (ServeHTTP_invoked codec _ _ _ _ _ Hinv).
  assert (¬ (outN h < 0 ∧ errN h < 0)) as Hdecl by lia.
  rewrite (ServeHTTP_respond_value codec h responses VNil opts _ Hdecl Hc).
  rewrite (writeJSON_encoded codec h StatusOK (OfValue VNil) opts doc NewRecorder
             ([] ++ prologue codec h r) Henc eq_refl Hcode).
  simpl. split_and!; try done. by intros ->.
Qed.

End Serving.

(** ** The claims on the handlers of the tests *)

Import Toy.

(** C1 (defect of [parsePayload]).  A function with two parameters
    after the context is not refused: [NewHandler] returns a handler for
    it, which takes no payload, and every request to that handler ends
    in the panic of [reflect.Value.Call], given one argument for three
    parameters. *)
Theorem extra_inputs_accepted :
  ∃ h, NewHandler (Some threeInputs) = Returned h ∧
       takesPayload h = false ∧
       ∀ r, (serve codec h r).1 = Panicked "reflect: Call with wrong argument count".
Proof. eexists. split_and!; [reflexivity|reflexivity|]. intros r. reflexivity. Qed.

(** C2 (defect of [parseReturns]).  A function returning
    [(error, error)] is not refused: [NewHandler] returns a handler
    whose [errN] is the second position, and the error returned in the
    first position is lost: the response is 200 with the document of
    the nil payload. *)
Theorem two_errors_accepted :
  ∃ h, NewHandler (Some twoErrors) = Returned h ∧
       errN h = 1 ∧ outN h = -1 ∧
       ∀ r, (serve codec h r).1 = Returned () ∧
            status (rw (serve codec h r).2) = 200 ∧
            written (rw (serve codec h r).2) = "null" +:+ nl.
Proof. eexists. split_and!; [reflexivity..|]. intros r. by vm_compute. Qed.

Lemma encode_failure_fixed_500_witness :
  let h := must (NewHandler (Some returnsChan)) in
  let r := request "{}" in
  invocation codec h r = Some [VData ChanInt] ∧
  0 <= outN h ∧
  collect h [VData ChanInt] = Some (VData ChanInt, None, []) ∧
  json_Marshal codec (VData ChanInt) = None ∧
  status (rw (serve codec h r).2) = 500 ∧
  written (rw (serve codec h r).2) = "Internal error: Encoding response failed" +:+ nl.
Proof.
  intros h r.
  assert (invocation codec h r = Some [VData ChanInt]) as H1 by reflexivity.
  assert (0 <= outN h) as H2 by (by vm_compute).
  assert (collect h [VData ChanInt] = Some (VData ChanInt, None, [])) as H3
    by reflexivity.
  assert (json_Marshal codec (VData ChanInt) = None) as H4 by reflexivity.
  destruct (encode_failure_fixed_500 codec h r _ _ _ H1 H2 H3 H4)
    as (_ & _ & Hs & Hw & _).
  split_and!; assumption.
Defined.

Lemma decode_failure_bad_request_witness :
  let f := Some takesString in
  let h := must (NewHandler f) in
  let r := request "[]" in
  let err := errorString "json: cannot unmarshal into Go value of type string" None in
  let doc :=
    "{" +:+ String "010"%char
      ("  " +:+ String "034"%char ("error" +:+ String "034"%char
         (": " +:+ String "034"%char
            ("Bad request: json: cannot unmarshal into Go value of type string"
             +:+ String "034"%char
               (String "010"%char ("}" +:+ String "010"%char EmptyString)))))) in
  NewHandler f = Returned h ∧
  takesPayload h = true ∧
  payloadType h = Some stringType ∧
  json_Decode codec stringType (Body r) = inr err ∧
  (serve codec h r).1 = Returned () ∧
  status (rw (serve codec h r).2) = 400 ∧
  written (rw (serve codec h r).2) = doc ∧
  log (serve codec h r).2
  = [EvHeaderSet "content-type" "application/json; charset=utf-8";
     EvWriteHeader 400; EvWrite doc; EvBodyClose].
Proof.
  intros f h r err doc.
  assert (NewHandler f = Returned h) as H1 by reflexivity.
  assert (takesPayload h = true) as H2 by reflexivity.
  assert (payloadType h = Some stringType) as H3 by reflexivity.
  assert (json_Decode codec stringType (Body r) = inr err) as H4 by reflexivity.
  destruct (decode_failure_bad_request codec f h r H1 H2) as (t & Ht & Hfail & _).
  assert (t = stringType) as -> by congruence.
  exact (conj H1 (conj H2 (conj H3 (conj H4 (Hfail err H4))))).
Defined.

(** C6 as stated fails on an error whose code [WriteHeader] does not
    take: for [Error(0, "zero")] the handler sets the content type and
    then panics in [WriteHeader(0)]; no status line and no body are
    written.  It also fails when the value in the callback position is
    no [[]ResponseFunc]: the type assertion of [ServeHTTP] panics before
    the error is looked at. *)
Lemma error_translation_counterexample :
  let r := request "{}" in
  let h := must (NewHandler (Some zeroCode)) in
  let h' := must (NewHandler (Some plainFuncsError)) in
  NewHandler (Some zeroCode) = Returned h ∧
  invocation codec h r = Some [VError (Error 0 "zero")] ∧
  (serve codec h r).1 = Panicked "invalid WriteHeader code" ∧
  log (serve codec h r).2
  = [EvCall [VCtx r];
     EvHeaderSet "content-type" "application/json; charset=utf-8";
     EvWriteHeader 0] ∧
  wroteHeader (rw (serve codec h r).2) = false ∧
  written (rw (serve codec h r).2) = EmptyString ∧
  NewHandler (Some plainFuncsError) = Returned h' ∧
  invocation codec h' r
  = Some [VData (Str "ok"); VData (Str "[]func(*Response)");
          VError (Error 409 "conflict")] ∧
  (serve codec h' r).1 = Panicked "runtime error while collecting the responses" ∧
  rw (serve codec h' r).2 = NewRecorder.
Proof. by vm_compute. Qed.

Lemma error_translation_witness :
  let h := must (NewHandler (Some customError)) in
  let r := request (quote "world") in
  let e := Errorf 502 "Bad gateway" [] in
  invocation codec h r = Some [VError e] ∧
  collect h [VError e] = Some (VNil, Some e, []) ∧
  find is_HandlerErr (cause_chain e) = Some (HandlerErr 502 "Bad gateway" None) ∧
  100 <= 502 <= 999 ∧
  (serve codec h r).1 = Returned () ∧
  status (rw (serve codec h r).2) = 502 ∧
  written (rw (serve codec h r).2)
  = "{" +:+ String "010"%char
      ("  " +:+ String "034"%char ("error" +:+ String "034"%char
         (": " +:+ String "034"%char ("Bad gateway" +:+ String "034"%char
            (String "010"%char ("}" +:+ String "010"%char EmptyString)))))).
Proof.
  intros h r e.
  assert (invocation codec h r = Some [VError e]) as H1 by reflexivity.
  assert (collect h [VError e] = Some (VNil, Some e, [])) as H2 by reflexivity.
  assert (find is_HandlerErr (cause_chain e)
          = Some (HandlerErr 502 "Bad gateway" None)) as H3 by reflexivity.
  assert (100 <= 502 <= 999) as H4 by lia.
  destruct (error_translation codec h r _ _ _ _ H1 H2) as (Htyped & _).
  destruct (proj1 (Htyped 502 "Bad gateway" None H3) H4) as (Hr & Hs & Hw).
  exact (conj H1 (conj H2 (conj H3 (conj H4 (conj Hr (conj Hs Hw)))))).
Defined.

(** C7 as stated fails when a callback leaves a status code that
    [WriteHeader] does not take: with a callback that sets the status
    code to 0 the handler runs the callback, sets the content type and
    panics in [WriteHeader(0)]; no status line and no body are written.
    It also fails when the value in the callback position is no
    [[]ResponseFunc]: the type assertion of [ServeHTTP] panics. *)
Lemma success_response_counterexample :
  let r := request "{}" in
  let h := must (NewHandler (Some statusZero)) in
  let h' := must (NewHandler (Some plainFuncs)) in
  NewHandler (Some statusZero) = Returned h ∧
  invocation codec h r = Some [VData (Str "ok"); VOpts [noStatus]] ∧
  json_Encode codec EmptyString "  " (VData (Str "ok")) = Some (quote "ok" +:+ nl) ∧
  (serve codec h r).1 = Panicked "invalid WriteHeader code" ∧
  log (serve codec h r).2
  = [EvCall [VCtx r]; EvCallback 0;
     EvHeaderSet "content-type" "application/json; charset=utf-8";
     EvWriteHeader 0] ∧
  wroteHeader (rw (serve codec h r).2) = false ∧
  written (rw (serve codec h r).2) = EmptyString ∧
  NewHandler (Some plainFuncs) = Returned h' ∧
  invocation codec h' r = Some [VData (Str "ok"); VData (Str "[]func(*Response)")] ∧
  (serve codec h' r).1 = Panicked "runtime error while collecting the responses" ∧
  rw (serve codec h' r).2 = NewRecorder.
Proof. by vm_compute. Qed.

Lemma success_response_witness :
  let h := must (NewHandler (Some statusUpdater)) in
  let r := request (quote "world") in
  let responses := [VData (Str "ok"); VOpts [created]] in
  invocation codec h r = Some responses ∧
  0 <= outN h ∧
  collect h responses = Some (VData (Str "ok"), None, [created]) ∧
  json_Encode codec EmptyString "  " (VData (Str "ok")) = Some (quote "ok" +:+ nl) ∧
  100 <= StatusCode (apply_opts [created] {| hd := ∅; StatusCode := 200; cookies := [] |})
      <= 999 ∧
  (serve codec h r).1 = Returned () ∧
  status (rw (serve codec h r).2) = 201 ∧
  written (rw (serve codec h r).2) = quote "ok" +:+ nl ∧
  Header_Get "content-type" (sentHeader (rw (serve codec h r).2))
    = "application/json; charset=utf-8".
Proof.
  intros h r responses.
  assert (invocation codec h r = Some responses) as H1 by reflexivity.
  assert (0 <= outN h) as H2 by (by vm_compute).
  assert (collect h responses = Some (VData (Str "ok"), None, [created])) as H3
    by reflexivity.
  assert (json_Encode codec EmptyString "  " (VData (Str "ok"))
          = Some (quote "ok" +:+ nl)) as H4 by reflexivity.
  assert (100 <= StatusCode (apply_opts [created]
                   {| hd := ∅; StatusCode := 200; cookies := [] |}) <= 999) as H5
    by (simpl; lia).
  destruct (success_response codec h r _ _ _ _ H1 H2 H3 H4) as (Hvalid & Hlast & _).
  destruct (Hvalid H5) as (Hr & Hw & Hct & _).
  destruct (Hlast [] created eq_refl (λ c, eq_refl)) as (_ & Hs & _).
  exact (conj H1 (conj H2 (conj H3 (conj H4 (conj H5
           (conj Hr (conj Hs (conj Hw Hct)))))))).
Defined.

(** C8 as stated fails on the "Bad request" case of the tests: the
    handler declares no return at all, the body [[]] does not decode
    into its string payload, and the response is the 400 of the decode
    failure, with a body. *)
Lemma bare_response_counterexample :
  let h := must (NewHandler (Some takesString)) in
  let r := request "[]" in
  NewHandler (Some takesString) = Returned h ∧
  outN h < 0 ∧ errN h < 0 ∧
  status (rw (serve codec h r).2) = 400 ∧
  written (rw (serve codec h r).2) ≠ EmptyString.
Proof. by vm_compute. Qed.

Lemma bare_response_witness :
  let h := must (NewHandler (Some onlyOpts)) in
  let r := request "{}" in
  invocation codec h r = Some [VOpts [created]] ∧
  outN h < 0 ∧ errN h < 0 ∧
  serve codec h r
  = (Returned (),
     {| rw := {| handlerHeader := ∅; wroteHeader := true; status := 200;
                 sentHeader := ∅; written := EmptyString |};
        log := prologue codec h r ++ [EvWriteHeader 200] |}).
Proof.
  intros h r.
  assert (invocation codec h r = Some [VOpts [created]]) as H1 by reflexivity.
  assert (outN h < 0) as H2 by (by vm_compute).
  assert (errN h < 0) as H3 by (by vm_compute).
  split_and!; [exact H1|exact H2|exact H3|].
  exact (bare_response codec h r _ H1 H2 H3).
Defined.

(** C4 as stated fails on a handler without returns: [WriteHeader(200)]
    is the only call of the sink, [Write] is not called. *)
Lemma sink_protocol_counterexample :
  let h := must (NewHandler (Some noReturns)) in
  let r := request "{}" in
  NewHandler (Some noReturns) = Returned h ∧
  (serve codec h r).1 = Returned () ∧
  log (serve codec h r).2 = [EvCall [VCtx r]; EvWriteHeader 200] ∧
  count is_Write (log (serve codec h r).2) = 0%nat ∧
  sink_protocol (log (serve codec h r).2) = false.
Proof. by vm_compute. Qed.

(** When [enc.Encode] fails, [writeJSON] goes on after [http.Error]:
    it sets a header and calls [WriteHeader] a second time, after the
    response has been committed. *)
Example encode_failure_log :
  let h := must (NewHandler (Some returnsChan)) in
  let r := request "{}" in
  log (serve codec h r).2
  = [EvCall [VCtx r];
     EvHeaderSet "Content-Type" "text/plain; charset=utf-8";
     EvHeaderSet "X-Content-Type-Options" "nosniff";
     EvWriteHeader 500;
     EvWrite ("Internal error: Encoding response failed" +:+ nl);
     EvHeaderSet "content-type" "application/json; charset=utf-8";
     EvWriteHeader 200].
Proof. reflexivity. Qed.

Lemma sink_calls_served_witness :
  let h := must (NewHandler (Some hello)) in
  let r := request (quote "world") in
  (serve codec h r).1 = Returned () ∧
  (∀ responses out opts,
     invocation codec h r = Some responses →
     ¬ (outN h < 0 ∧ errN h < 0) →
     collect h responses = Some (out, None, opts) →
     ∃ doc, json_Marshal codec out = Some doc ∧ doc ≠ EmptyString) ∧
  sink_calls
    (if decide (is_Some (invocation codec h r) ∧ outN h < 0 ∧ errN h < 0)
     then 0 else 1)
    (log (serve codec h r).2) = true.
Proof.
  intros h r.
  assert ((serve codec h r).1 = Returned ()) as H1 by reflexivity.
  assert (∀ responses out opts,
     invocation codec h r = Some responses →
     ¬ (outN h < 0 ∧ errN h < 0) →
     collect h responses = Some (out, None, opts) →
     ∃ doc, json_Marshal codec out = Some doc ∧ doc ≠ EmptyString) as H2.
  { intros responses out opts Hinv _ Hc.
    vm_compute in Hinv. injection Hinv as <-.
    vm_compute in Hc. injection Hc as <- _.
    eexists. split; [reflexivity|discriminate]. }
  split_and!; [exact H1|exact H2|].
  exact (sink_calls_served codec h r H1 H2).
Defined.

(** C9 (defect of [parseReturns], the one of C2).  A function returning
    [(string, error, error)] has an error-role return in the second
    position, which is not the last one, and is not refused: the loop
    keeps the last error-role position only, so the check of [errN]
    sees the third position.  [NewHandler] returns a handler, and the
    error returned in the second position is lost: the response is 200
    with the document of the payload. *)
Theorem error_before_last_accepted :
  Outs (TypeOf errorBeforeError) !! 1%nat = Some errorType ∧
  getReturnType errorType = returnErr ∧
  length (Outs (TypeOf errorBeforeError)) = 3%nat ∧
  ∃ h, NewHandler (Some errorBeforeError) = Returned h ∧
       errN h = 2 ∧ outN h = 0 ∧
       ∀ r, invocation codec h r
            = Some [VData (Str "ok"); VError (errorString "boom" None); VNil] ∧
            (serve codec h r).1 = Returned () ∧
            status (rw (serve codec h r).2) = 200 ∧
            written (rw (serve codec h r).2) = quote "ok" +:+ nl.
Proof.
  split_and!; [reflexivity..|].
  eexists. split_and!; [reflexivity..|]. intros r. by vm_compute.
Qed.

Lemma payload_is_default_witness :
  TypeOf returnsChan = TFunc [contextType] [chanIntType] false noMethods ∧
  Implements_Context contextType = true ∧
  Implements_error chanIntType = false ∧
  ¬ is_opts_slice chanIntType ∧
  getReturnType chanIntType = returnPayload ∧
  ∃ h, NewHandler (Some returnsChan) = Returned h ∧ outN h = 0 ∧
    ∀ r responses v,
      invocation codec h r = Some responses →
      responses !! 0%nat = Some v →
      json_Marshal codec v = None →
      status (rw (serve codec h r).2) = 500 ∧
      written (rw (serve codec h r).2)
        = "Internal error: Encoding response failed" +:+ nl.
Proof.
  assert (¬ is_opts_slice chanIntType) as Hno.
  { intros (e & ms & Heq & _). discriminate Heq. }
  destruct (payload_is_default codec) as (_ & Hpay & _ & Haccept).
  split_and!; [reflexivity|reflexivity|reflexivity|exact Hno| |].
  - exact (Hpay chanIntType eq_refl Hno).
  - exact (Haccept returnsChan contextType [] chanIntType false noMethods
             eq_refl eq_refl eq_refl Hno).
Defined.

(** ** The cases of the package's tests *)

(** "Hello world": status 200 and the document of ["hello world"]. *)
Example hello_world :
  let res := serve codec (must (NewHandler (Some hello))) (request (quote "world")) in
  res.1 = Returned () ∧ status (rw res.2) = 200 ∧
  written (rw res.2) = quote "hello world" +:+ nl.
Proof. by vm_compute. Qed.

(** "Only writes 201": the handler declares callbacks only, so they are
    not applied and the status is 200, not the 201 the test asks for. *)
Example only_writes_201 :
  let res := serve codec (must (NewHandler (Some onlyOpts))) (request (quote "world")) in
  res.1 = Returned () ∧ status (rw res.2) = 200 ∧ written (rw res.2) = EmptyString.
Proof. by vm_compute. Qed.

(** The cases of [TestNewHandler] that must panic: a string, and
    functions without a context. *)
Example not_a_handler :
  NewHandler (Some {| TypeOf := stringType; IsVariadic := false;
                      assignable := fun _ => true; apply := fun _ => [] |}
              : option (GoValue data))
  = Panicked "handler must be a function".
Proof. reflexivity. Qed.

Example useless_handler :
  NewHandler (Some {| TypeOf := funcType [] []; IsVariadic := false;
                      assignable := fun _ => true; apply := fun _ => [] |}
              : option (GoValue data))
  = Panicked "handler function must take a context.Context as its first argument".
Proof. reflexivity. Qed.

(** A function whose first parameter is a concrete type that
    implements [context.Context] is accepted by [NewHandler]; every
    request then panics in [reflect.Value.Call], which finds the context
    not assignable to the parameter, and the function is not entered. *)
Example concrete_context_parameter :
  ∃ h, NewHandler (Some concreteContext) = Returned h ∧
       ∀ r, serve codec h r
            = (Panicked "reflect: Call using an argument of the wrong type", fresh).
Proof. eexists. split; [reflexivity|]. intros r. reflexivity. Qed.

(** ** The further properties on the handlers of the tests *)

Lemma first_parameter_must_be_context_witness :
  Kind_of (TypeOf noContext) = Func ∧
  Ins (TypeOf noContext) = [stringType] ∧
  Implements_Context stringType = false ∧
  NewHandler (Some noContext)
  = Panicked "first argument of handler does not implement context.Context".
Proof.
  assert (Kind_of (TypeOf noContext) = Func) as H by reflexivity.
  split_and!; [exact H|reflexivity|reflexivity|].
  exact (proj2 (first_parameter_must_be_context noContext H) stringType []
           eq_refl eq_refl).
Defined.

Lemma too_many_returns_rejected_witness :
  (3 < length (Outs (TypeOf fourReturns)))%nat ∧
  NewHandler (Some fourReturns) = Panicked "too many return values".
Proof.
  assert (3 < length (Outs (TypeOf fourReturns)))%nat as H by (simpl; lia).
  split; [exact H|].
  exact (proj2 (too_many_returns_rejected fourReturns H) contextType []
           eq_refl eq_refl).
Defined.

Lemma descriptor_positions_witness :
  let h := must (NewHandler (Some fullSignature)) in
  NewHandler (Some fullSignature) = Returned h ∧
  position_of returnErr (errN h) (Outs (TypeOf fullSignature)) ∧
  position_of returnOpts (optsN h) (Outs (TypeOf fullSignature)) ∧
  position_of returnPayload (outN h) (Outs (TypeOf fullSignature)) ∧
  (outN h, optsN h, errN h) = (0, 1, 2).
Proof.
  intros h.
  assert (NewHandler (Some fullSignature) = Returned h) as H by reflexivity.
  destruct (descriptor_positions fullSignature h H) as (Pe & Po & Pp & _).
  split_and!; [exact H|exact Pe|exact Po|exact Pp|reflexivity].
Defined.

Lemma payload_parameter_witness :
  let h := must (NewHandler (Some fullSignature)) in
  NewHandler (Some fullSignature) = Returned h ∧
  hv h = Some fullSignature ∧
  (takesPayload h = true ↔ length (Ins (TypeOf fullSignature)) = 2%nat) ∧
  payloadType h = Some stringType.
Proof.
  intros h.
  assert (NewHandler (Some fullSignature) = Returned h) as H by reflexivity.
  destruct (payload_parameter fullSignature h H) as (_ & Hhv & _ & Htp & Hpt).
  split_and!; [exact H|exact Hhv|exact Htp|exact Hpt].
Defined.

Lemma documented_signatures_accepted_witness :
  (length [stringType] <= 1)%nat ∧
  [stringType; optsType; errorType]
    ∈ [[]; [errorType]; [stringType; errorType]; [stringType; optsType; errorType]] ∧
  ∃ h, NewHandler (Some fullSignature) = Returned h ∧
       takesPayload h = true ∧
       (outN h, optsN h, errN h) = (0, 1, 2).
Proof.
  assert (length [stringType] <= 1)%nat as H1 by (simpl; lia).
  assert ([stringType; optsType; errorType]
            ∈ [[]; [errorType]; [stringType; errorType];
               [stringType; optsType; errorType]]) as H2.
  { do 3 apply list_elem_of_further. apply list_elem_of_here. }
  split_and!; [exact H1|exact H2|].
  exact (documented_signatures_accepted fullSignature contextType [stringType]
           false noMethods [stringType; optsType; errorType]
           stringType optsType errorType eq_refl eq_refl H1 eq_refl eq_refl eq_refl H2).
Defined.

Lemma body_closed_once_witness :
  let f := Some takesString in
  let h := must (NewHandler f) in
  NewHandler f = Returned h ∧
  count is_BodyClose (log (serve codec h (request "[]")).2) = 1%nat ∧
  count is_BodyClose (log (serve codec h (request (quote "world"))).2) = 1%nat.
Proof.
  intros f h.
  assert (NewHandler f = Returned h) as H by reflexivity.
  split_and!; [exact H|..].
  - exact (body_closed_once codec f h (request "[]") H).
  - exact (body_closed_once codec f h (request (quote "world")) H).
Defined.

Lemma callback_assertion_panics_witness :
  let h := must (NewHandler (Some plainFuncs)) in
  let r := request "{}" in
  let v := VData (Str "[]func(*Response)") in
  NewHandler (Some plainFuncs) = Returned h ∧
  invocation codec h r = Some [VData (Str "ok"); v] ∧
  ¬ (outN h < 0 ∧ errN h < 0) ∧
  0 <= optsN h ∧
  index [VData (Str "ok"); v] (optsN h) = Some v ∧
  (∀ fs, v ≠ VOpts fs) ∧
  (∃ msg, (serve codec h r).1 = Panicked msg) ∧
  rw (serve codec h r).2 = NewRecorder.
Proof.
  intros h r v.
  assert (invocation codec h r = Some [VData (Str "ok"); v]) as H1 by reflexivity.
  assert (¬ (outN h < 0 ∧ errN h < 0)) as H2 by (intros [Hout _]; by vm_compute in Hout).
  assert (0 <= optsN h) as H3 by (by vm_compute).
  assert (index [VData (Str "ok"); v] (optsN h) = Some v) as H4 by reflexivity.
  assert (∀ fs, v ≠ VOpts fs) as H5 by (intros fs; discriminate).
  destruct (callback_assertion_panics codec h r _ v H1 H2 H3 H4 H5) as [Hp Hw].
  split_and!; [reflexivity|exact H1|exact H2|exact H3|exact H4|exact H5|exact Hp|exact Hw].
Defined.

Lemma error_discards_callbacks_witness :
  let h := must (NewHandler (Some failing)) in
  let r := request "{}" in
  let e := Error 409 "conflict" in
  let responses := [VData (Str "partial"); VOpts [created]; VError e] in
  invocation codec h r = Some responses ∧
  collect h responses = Some (VData (Str "partial"), Some e, [created]) ∧
  match find is_HandlerErr (cause_chain e) with
  | Some (HandlerErr c m _) => (m, c)
  | _ => (err_Error e, 500)
  end = ("conflict", 409) ∧
  100 <= 409 <= 999 ∧
  log (serve codec h r).2
  = [EvCall [VCtx r];
     EvHeaderSet "content-type" "application/json; charset=utf-8";
     EvWriteHeader 409;
     EvWrite ("{" +:+ String "010"%char
                ("  " +:+ String "034"%char ("error" +:+ String "034"%char
                   (": " +:+ String "034"%char ("conflict" +:+ String "034"%char
                      (String "010"%char ("}" +:+ String "010"%char EmptyString)))))))] ∧
  status (rw (serve codec h r).2) = 409 ∧
  sentHeader (rw (serve codec h r).2)
  = Header_Set "content-type" "application/json; charset=utf-8" ∅.
Proof.
  intros h r e responses.
  assert (invocation codec h r = Some responses) as H1 by reflexivity.
  assert (collect h responses = Some (VData (Str "partial"), Some e, [created]))
    as H2 by reflexivity.
  assert (match find is_HandlerErr (cause_chain e) with
          | Some (HandlerErr c m _) => (m, c)
          | _ => (err_Error e, 500)
          end = ("conflict", 409)) as H3 by reflexivity.
  assert (100 <= 409 <= 999) as H4 by lia.
  exact (conj H1 (conj H2 (conj H3 (conj H4
           (error_discards_callbacks codec h r _ _ _ _ _ _ H1 H2 H3 H4))))).
Defined.


Lemma cookies_committed_in_order_witness :
  let h := must (NewHandler (Some fullSignature)) in
  let r := request (quote "x") in
  let opts := [Response_SetCookie {| Cookie_String := "a=1" |};
               Response_Header_Set "x-trace" "7";
               Response_SetCookie {| Cookie_String := "b=2" |}] in
  let responses := [VData (Str "x"); VOpts opts; VNil] in
  invocation codec h r = Some responses ∧
  ¬ (outN h < 0 ∧ errN h < 0) ∧
  collect h responses = Some (VData (Str "x"), None, opts) ∧
  json_Marshal codec (VData (Str "x")) = Some (quote "x" +:+ nl) ∧
  100 <= StatusCode (apply_opts opts {| hd := ∅; StatusCode := 200; cookies := [] |})
      <= 999 ∧
  default [] (sentHeader (rw (serve codec h r).2) !! "Set-Cookie") = ["a=1"; "b=2"].
Proof.
  intros h r opts responses.
  assert (invocation codec h r = Some responses) as H1 by reflexivity.
  assert (¬ (outN h < 0 ∧ errN h < 0)) as H2 by (intros [Hout _]; by vm_compute in Hout).
  assert (collect h responses = Some (VData (Str "x"), None, opts)) as H3 by reflexivity.
  assert (json_Marshal codec (VData (Str "x")) = Some (quote "x" +:+ nl)) as H4
    by reflexivity.
  assert (100 <= StatusCode (apply_opts opts
                   {| hd := ∅; StatusCode := 200; cookies := [] |}) <= 999) as Hv
    by (simpl; lia).
  destruct (cookies_committed_in_order codec h r _ _ _ _ H1 H2 H3 H4 Hv) as [Hc _].
  refine (conj H1 (conj H2 (conj H3 (conj H4 (conj Hv _))))).
  rewrite Hc. reflexivity.
Defined.

Lemma encode_failure_second_WriteHeader_witness :
  let h := must (NewHandler (Some returnsChan)) in
  let r := request "{}" in
  invocation codec h r = Some [VData ChanInt] ∧
  ¬ (outN h < 0 ∧ errN h < 0) ∧
  collect h [VData ChanInt] = Some (VData ChanInt, None, []) ∧
  json_Marshal codec (VData ChanInt) = None ∧
  count is_WriteHeader (log (serve codec h r).2) = 2%nat ∧
  sink_protocol (log (serve codec h r).2) = false.
Proof.
  intros h r.
  assert (invocation codec h r = Some [VData ChanInt]) as H1 by reflexivity.
  assert (¬ (outN h < 0 ∧ errN h < 0)) as H2 by (intros [Hout _]; by vm_compute in Hout).
  assert (collect h [VData ChanInt] = Some (VData ChanInt, None, [])) as H3
    by reflexivity.
  assert (json_Marshal codec (VData ChanInt) = None) as H4 by reflexivity.
  destruct (encode_failure_second_WriteHeader codec h r _ _ _ H1 H2 H3 H4)
    as (_ & Htwo & _ & Hproto).
  split_and!; [exact H1|exact H2|exact H3|exact H4|exact Htwo|exact Hproto].
Defined.

Lemma error_only_handler_nil_witness :
  let h := must (NewHandler (Some noError)) in
  let r := request "{}" in
  invocation codec h r = Some [VNil] ∧
  outN h < 0 ∧ 0 <= errN h ∧
  collect h [VNil] = Some (VNil, None, []) ∧
  json_Marshal codec VNil = Some ("null" +:+ nl) ∧
  100 <= StatusCode (apply_opts [] {| hd := ∅; StatusCode := 200; cookies := [] |})
      <= 999 ∧
  written (rw (serve codec h r).2) = "null" +:+ nl ∧
  status (rw (serve codec h r).2) = 200.
Proof.
  intros h r.
  assert (invocation codec h r = Some [VNil]) as H1 by reflexivity.
  assert (outN h < 0) as H2 by (by vm_compute).
  assert (0 <= errN h) as H3 by (by vm_compute).
  assert (collect h [VNil] = Some (VNil, None, [])) as H4 by reflexivity.
  assert (json_Marshal codec VNil = Some ("null" +:+ nl)) as H5 by reflexivity.
  assert (100 <= StatusCode (apply_opts []
                   {| hd := ∅; StatusCode := 200; cookies := [] |}) <= 999) as Hv
    by (simpl; lia).
  destruct (error_only_handler_nil codec h r _ _ _ _ H1 H2 H3 H4 H5 Hv)
    as (_ & _ & Hw & _ & Hs).
  exact (conj H1 (conj H2 (conj H3 (conj H4 (conj H5 (conj Hv
           (conj Hw (Hs eq_refl)))))))).
Defined.

Lemma Errorf_plain_message_witness :
  no_verb "Bad gateway" = true ∧
  Errorf 502 "Bad gateway" [] = Error 502 "Bad gateway".
Proof.
  assert (no_verb "Bad gateway" = true) as H by reflexivity.
  split; [exact H|exact (Errorf_plain_message 502 "Bad gateway" H)].
Defined.

Lemma Errorf_wraps_witness :
  let cause := errorString "unexpected end of JSON input" None in
  no_verb "Bad request: " = true ∧
  Errorf 400 "Bad request: %w" [cause]
  = HandlerErr 400 "Bad request: unexpected end of JSON input" (Some cause).
Proof.
  intros cause.
  assert (no_verb "Bad request: " = true) as H by reflexivity.
  split; [exact H|].
  exact (proj1 (Errorf_wraps 400 "Bad request: " cause H)).
Defined.
